(** * llama-app-generator: the request-forwarding triad

    A shallow embedding of the three headers every generated project
    embeds, and the properties stated about them:

    - [runtime_config.hpp]  (struct RuntimeConfig)
    - [llama_client.hpp]    (class LlamaClient)
    - [app_server_base.hpp] (class template AppServerBase)

    C++ exceptions are results of an error monad, [std::string] is
    [string], [int] is [Z] with its range written out where the code
    depends on it.  The operating system, the HTTP transport (cpp-httplib)
    and the JSON text codec (nlohmann::json parse and dump) are not part of
    the headers: they are parameters of the definitions that use them. *)

From Stdlib Require Import ZArith NArith List String Ascii Bool Lia.
Import ListNotations.

Local Open Scope string_scope.
Local Open Scope Z_scope.

(* ================================================================== *)
(** * Part I: definitions *)
(* ================================================================== *)

(** ** The C++ substrate: exceptions, std::string, number conversion *)

Module Cxx.

(** The exception classes that occur in the three headers.  All of them
    derive from [std::exception]. *)
Inductive exception_class : Type :=
| RuntimeError      (* std::runtime_error *)
| InvalidArgument   (* std::invalid_argument, from std::stoi *)
| OutOfRange        (* std::out_of_range, from std::stoi *)
| ParseError        (* nlohmann::json::parse_error *)
| TypeError         (* nlohmann::json::type_error *)
| OtherStdException (* any other class derived from std::exception *).

(** What a [throw] can carry: an object derived from [std::exception]
    (it has a [what()]), or a value of any other type, which a handler
    [catch (const std::exception&)] does not match and [catch (...)]
    does. *)
Inductive thrown : Type :=
| StdException (cls : exception_class) (what : string)
| Foreign.

Inductive outcome (A : Type) : Type :=
| Returns (a : A)
| Throws (e : thrown).
Arguments Returns {A} a.
Arguments Throws {A} e.

Definition bind {A B} (m : outcome A) (k : A -> outcome B) : outcome B :=
  match m with
  | Returns a => k a
  | Throws e => Throws e
  end.

Definition runtime_error (what : string) : thrown :=
  StdException RuntimeError what.

(** What a call does: it returns or throws, or its behaviour is not
    defined by the language (it reads an object that was never given a
    value, for instance), in which case nothing can be said of it. *)
Inductive behaviour (A : Type) : Type :=
| Defined (o : outcome A)
| Undefined.
Arguments Defined {A} o.
Arguments Undefined {A}.

(** [try { body } catch (...) { handler }] *)
Definition try_catch_all {A} (body : outcome A) (handler : outcome A)
  : outcome A :=
  match body with
  | Returns a => Returns a
  | Throws _ => handler
  end.

(** *** Characters *)

Definition nl : ascii := "010"%char.   (* '\n' *)
Definition tab : ascii := "009"%char.  (* '\t' *)
Definition cr : ascii := "013"%char.   (* '\r' *)
Definition vt : ascii := "011"%char.   (* '\v' *)
Definition ff : ascii := "012"%char.   (* '\f' *)

(** [std::isspace] in the C locale. *)
Definition isspace (c : ascii) : bool :=
  Ascii.eqb c " " || Ascii.eqb c tab || Ascii.eqb c nl
  || Ascii.eqb c vt || Ascii.eqb c ff || Ascii.eqb c cr.

(** *** std::string members used by the headers *)

Definition empty (s : string) : bool :=
  match s with
  | EmptyString => true
  | String _ _ => false
  end.

(** [!s.empty() && s[0] == c] *)
Definition front_is (c : ascii) (s : string) : bool :=
  match s with
  | EmptyString => false
  | String c0 _ => Ascii.eqb c0 c
  end.

Fixpoint mem_char (c : ascii) (set : string) : bool :=
  match set with
  | EmptyString => false
  | String c0 set' => Ascii.eqb c c0 || mem_char c set'
  end.

(** [s.find_first_not_of(set)]; [None] is [npos]. *)
Fixpoint find_first_not_of (set s : string) : option nat :=
  match s with
  | EmptyString => None
  | String c s' =>
      if mem_char c set then option_map S (find_first_not_of set s')
      else Some O
  end.

(** [s.find_last_not_of(set)]; [None] is [npos]. *)
Fixpoint find_last_not_of (set s : string) : option nat :=
  match s with
  | EmptyString => None
  | String c s' =>
      match find_last_not_of set s' with
      | Some i => Some (S i)
      | None => if mem_char c set then None else Some O
      end
  end.

Fixpoint drop (pos : nat) (s : string) : string :=
  match pos, s with
  | O, _ => s
  | S pos', String _ s' => drop pos' s'
  | S _, EmptyString => EmptyString
  end.

Fixpoint take (n : nat) (s : string) : string :=
  match n, s with
  | S n', String c s' => String c (take n' s')
  | _, _ => EmptyString
  end.

(** [s.substr(pos, n)] and [s.substr(pos)].  Every call in the headers
    passes a position obtained from a successful [find] on the same
    string, so [pos <= s.size()] and the [std::out_of_range] case of
    [substr] does not arise. *)
Definition substr (s : string) (pos n : nat) : string := take n (drop pos s).
Definition substr_from (s : string) (pos : nat) : string := drop pos s.

(** [s.find(pattern)] from position 0; [None] is [npos]. *)
Definition find (s pattern : string) : option nat := String.index 0 pattern s.

(** [s.find(c)] for a character. *)
Fixpoint find_char (s : string) (c : ascii) : option nat :=
  match s with
  | EmptyString => None
  | String c0 s' =>
      if Ascii.eqb c0 c then Some O else option_map S (find_char s' c)
  end.

(** *** std::getline on an input stream

    The stream is the text still to be read.  At end of input nothing is
    extracted and the stream fails; otherwise the characters up to the
    first newline are the line, and the newline itself is consumed. *)
Fixpoint split_line (s : string) : string * string :=
  match s with
  | EmptyString => (EmptyString, EmptyString)
  | String c s' =>
      if Ascii.eqb c nl then (EmptyString, s')
      else let '(line, rest) := split_line s' in (String c line, rest)
  end.

Definition getline (stream : string) : option (string * string) :=
  match stream with
  | EmptyString => None
  | String _ _ => Some (split_line stream)
  end.

(** *** Decimal conversion: std::to_string, std::stoi, operator>> *)

Definition INT_MIN : Z := - 2147483648.
Definition INT_MAX : Z := 2147483647.

Definition in_int_range (z : Z) : bool := (INT_MIN <=? z) && (z <=? INT_MAX).

Definition digit_char (d : N) : ascii := ascii_of_N (48 + d).

Definition digit_value (c : ascii) : option N :=
  let n := N_of_ascii c in
  if ((48 <=? n) && (n <=? 57))%N then Some (n - 48)%N else None.

Fixpoint digits_from (fuel : nat) (n : N) (acc : string) : string :=
  match fuel with
  | O => acc
  | S fuel' =>
      let acc' := String (digit_char (n mod 10)) acc in
      if (n / 10 =? 0)%N then acc' else digits_from fuel' (n / 10) acc'
  end.

(** A number has no more decimal digits than binary ones. *)
Definition decimal (n : N) : string :=
  digits_from (S (N.to_nat (N.size n))) n EmptyString.

(** [std::to_string(int)] *)
Definition to_string (z : Z) : string :=
  if z <? 0 then String "-" (decimal (Z.to_N (- z)))
  else decimal (Z.to_N z).

Fixpoint skip_space (s : string) : string :=
  match s with
  | String c s' => if isspace c then skip_space s' else s
  | EmptyString => s
  end.

Fixpoint scan_digits (s : string) (acc : N) : N :=
  match s with
  | String c s' =>
      match digit_value c with
      | Some d => scan_digits s' (acc * 10 + d)
      | None => acc
      end
  | EmptyString => acc
  end.

(** The integer read off the front of a string in base 10, as [strtol]
    and [num_get] do: leading white space, an optional sign, then the
    longest run of digits; whatever follows the digits is left alone.
    [None] when there is no digit to convert. *)
Definition scan_int (s : string) : option Z :=
  let s1 := skip_space s in
  let '(negative, s2) :=
    match s1 with
    | String c r =>
        if Ascii.eqb c "-" then (true, r)
        else if Ascii.eqb c "+" then (false, r)
        else (false, s1)
    | EmptyString => (false, s1)
    end in
  match s2 with
  | String c _ =>
      match digit_value c with
      | Some _ =>
          let n := Z.of_N (scan_digits s2 0) in
          Some (if negative then - n else n)
      | None => None
      end
  | EmptyString => None
  end.

(** [std::stoi(s)] *)
Definition stoi (s : string) : outcome Z :=
  match scan_int s with
  | None => Throws (StdException InvalidArgument "stoi")
  | Some v =>
      if in_int_range v then Returns v
      else Throws (StdException OutOfRange "stoi")
  end.

(** [std::stringstream ss(s); ss >> n;] for an [int n]: [Some n] when
    the extraction succeeds, [None] when [ss.fail()] holds afterwards
    (no digits, or a value that does not fit an [int]). *)
Definition extract_int (s : string) : option Z :=
  match scan_int s with
  | None => None
  | Some v => if in_int_range v then Some v else None
  end.

End Cxx.

Export Cxx.

Notation "x <- m ;; k" := (Cxx.bind m (fun x => k))
  (at level 61, m at next level, right associativity).

(** ** nlohmann::json values *)

Module Json.

(** A JSON value, [nlohmann::basic_json]; [json] is its instance at the
    library's number types.  [number_float] is the floating-point number
    type; nothing here computes with it, so it is kept abstract (a C++
    [float] converts to it without loss).  An object is a
    [std::map<std::string, json>]: its keys are unique and kept in
    increasing order. *)
#[warnings="-register-all"] Inductive basic_json (number_float : Type) : Type :=
| JNull
| JBool (b : bool)
| JInt (n : Z)
| JFloat (x : number_float)
| JString (s : string)
| JArray (items : list (basic_json number_float))
| JObject (members : list (string * basic_json number_float)).
Arguments JNull {number_float}.
Arguments JBool {number_float} b.
Arguments JInt {number_float} n.
Arguments JFloat {number_float} x.
Arguments JString {number_float} s.
Arguments JArray {number_float} items.
Arguments JObject {number_float} members.

Section Values.
Context {number_float : Type}.
Local Abbreviation json := (basic_json number_float).

(** [std::map::emplace]: the pair is added at its place in key order
    unless the key is already present, in which case the map is left
    as it is. *)
Fixpoint emplace (k : string) (v : json) (m : list (string * json))
  : list (string * json) :=
  match m with
  | [] => [(k, v)]
  | (k0, v0) :: m' =>
      match String.compare k k0 with
      | Lt => (k, v) :: m
      | Eq => m
      | Gt => (k0, v0) :: emplace k v m'
      end
  end.

Fixpoint lookup (k : string) (m : list (string * json)) : option json :=
  match m with
  | [] => None
  | (k0, v0) :: m' => if String.eqb k k0 then Some v0 else lookup k m'
  end.

(** An element of a braced list that can be read as a key/value pair:
    an array of two elements whose first is a string. *)
Definition is_pair (j : json) : bool :=
  match j with
  | JArray [JString _; _] => true
  | _ => false
  end.

Definition emplace_pair (m : list (string * json)) (j : json)
  : list (string * json) :=
  match j with
  | JArray [JString k; v] => emplace k v m
  | _ => m
  end.

(** [json j = { e1, ..., en };] the initializer-list constructor: an
    object when every element is a pair, an array otherwise. *)
Definition init_list (init : list json) : json :=
  if forallb is_pair init then JObject (fold_left emplace_pair init [])
  else JArray init.

(** [json::array({ e1, ..., en })] *)
Definition array (init : list json) : json := JArray init.

End Values.

(** The text side of the library, as far as the headers use it:
    [json::parse] fails with a [parse_error] whose [what()] is the
    [Failed] message; [dump()] fails with a [type_error] (a string that
    is not valid UTF-8). *)
Inductive attempt (A : Type) : Type :=
| Done (a : A)
| Failed (what : string).
Arguments Done {A} a.
Arguments Failed {A} what.

Class Codec (number_float : Type) : Type := {
  parse_text : string -> attempt (basic_json number_float);
  dump_text : basic_json number_float -> attempt string
}.

Section Text.
Context {number_float : Type} {codec : Codec number_float}.
Local Abbreviation json := (basic_json number_float).

(** [json::parse(text)] *)
Definition parse (text : string) : outcome json :=
  match parse_text text with
  | Done j => Returns j
  | Failed what => Throws (StdException ParseError what)
  end.

(** [j.dump()] *)
Definition dump (j : json) : outcome string :=
  match dump_text j with
  | Done s => Returns s
  | Failed what => Throws (StdException TypeError what)
  end.

End Text.

End Json.

Export Json.

(** ** runtime_config.hpp *)

Module RuntimeConfig.

Inductive access_mode : Type := R_OK | X_OK.

(** What the header asks of the operating system: opening a file for
    reading ([None] when [is_open()] is false, the contents otherwise),
    [wordexp], and [access] (0 on success).  [wordexp] either succeeds
    and fills its result with the words of the expansion ([Some] of
    [we_wordv]), or fails (an unquoted [|], [&], [;], [<], [>], a
    parenthesis or a brace, an unbalanced quote, exhausted memory) and
    returns a code other than 0 ([None]); after a failure the result
    holds no word list that the caller may rely on. *)
Record System : Type := {
  ifstream_open : string -> option string;
  wordexp : string -> option (list string);
  access : string -> access_mode -> Z
}.

Record RuntimeConfig : Type := {
  llama_bin_path : string;
  model_path : string;
  llama_server_port : Z;
  app_server_port : Z
}.

Definition trim (str : string) : string :=
  let whitespace := String " " (String tab (String cr (String nl EmptyString))) in
  let start := find_first_not_of whitespace str in
  let end_ := find_last_not_of whitespace str in
  match start, end_ with
  | None, _ => EmptyString
  | Some start, Some end_ => substr str start (end_ - start + 1)%nat
  | Some start, None => EmptyString  (* not reached: a first one implies a last one *)
  end.

Section WithSystem.
Variable os : System.

(** [expand_path] declares its [wordexp_t] without a value and does not
    look at the return code of [wordexp].  When [wordexp] succeeded the
    result is its first word, or the path when there is no word.  When it
    failed, the function reads and frees a [wordexp_t] that never got a
    value: its behaviour is undefined, and the model has no result for it
    ([None]). *)
Definition expand_path (path : string) : option string :=
  match wordexp os path with
  | Some (word :: _) => Some word
  | Some [] => Some path
  | None => None
  end.

(** [from_file] returns a configuration or throws, except when one of
    its two calls of [expand_path] has no defined behaviour: then neither
    has the call of [from_file] ([Undefined]), and the lines after that
    path are not looked at. *)
Definition from_file (config_path : string) : behaviour RuntimeConfig :=
  match ifstream_open os config_path with
  | None =>
      Defined (Throws (runtime_error ("Failed to open config file: " ++ config_path)))
  | Some file =>
  (* Line 1: llama bin path *)
  match getline file with
  | None => Defined (Throws (runtime_error "Config file is empty"))
  | Some (line, file) =>
  let line := trim line in
  if empty line || front_is "#" line
  then Defined (Throws (runtime_error "Line 1: llama bin path is required")) else
  match expand_path line with
  | None => Undefined
  | Some llama_bin_path_ =>
  (* Line 2: model path *)
  match getline file with
  | None => Defined (Throws (runtime_error "Missing model path in config"))
  | Some (line, file) =>
  let line := trim line in
  if empty line || front_is "#" line
  then Defined (Throws (runtime_error "Line 2: model path is required")) else
  match expand_path line with
  | None => Undefined
  | Some model_path_ =>
  (* Line 3: llama-server port (port_x) *)
  match getline file with
  | None => Defined (Throws (runtime_error "Missing llama-server port in config"))
  | Some (line, file) =>
  let line := trim line in
  if empty line || front_is "#" line
  then Defined (Throws (runtime_error "Line 3: llama-server port is required")) else
  match extract_int line with
  | None => Defined (Throws (runtime_error "Line 3: Invalid port number"))
  | Some llama_server_port_ =>
  (* Line 4: app-server port (port_y) *)
  match getline file with
  | None => Defined (Throws (runtime_error "Missing app-server port in config"))
  | Some (line, file) =>
  let line := trim line in
  if empty line || front_is "#" line
  then Defined (Throws (runtime_error "Line 4: app-server port is required")) else
  match extract_int line with
  | None => Defined (Throws (runtime_error "Line 4: Invalid port number"))
  | Some app_server_port_ =>
      Defined (Returns {| llama_bin_path := llama_bin_path_;
                          model_path := model_path_;
                          llama_server_port := llama_server_port_;
                          app_server_port := app_server_port_ |})
  end end end end end end end end
  end.

Definition get_llama_server_path (c : RuntimeConfig) : string :=
  llama_bin_path c ++ "/llama-server".

Definition get_llama_server_url (c : RuntimeConfig) : string :=
  "http://localhost:" ++ to_string (llama_server_port c).

Definition validate (c : RuntimeConfig) : outcome unit :=
  let server_path := get_llama_server_path c in
  if negb (access os server_path X_OK =? 0)
  then Throws (runtime_error
         ("llama-server not found or not executable: " ++ server_path)) else
  if negb (access os (model_path c) R_OK =? 0)
  then Throws (runtime_error
         ("Model file not found or not readable: " ++ model_path c)) else
  if (llama_server_port c <? 1024) || (llama_server_port c >? 65535)
  then Throws (runtime_error
         ("Invalid llama-server port: " ++ to_string (llama_server_port c))) else
  if (app_server_port c <? 1024) || (app_server_port c >? 65535)
  then Throws (runtime_error
         ("Invalid app-server port: " ++ to_string (app_server_port c))) else
  if llama_server_port c =? app_server_port c
  then Throws (runtime_error
         "llama-server and app-server ports must be different")
  else Returns tt.

(** *** The configuration source seen as lines

    [from_file] reads its source through [getline] only.  The definitions
    below name what it sees, so that properties of [from_file] can be
    stated about lines. *)

(** The first [n] lines of a stream, as successive calls of [getline]
    deliver them. *)
Fixpoint read_lines (n : nat) (stream : string) : list string :=
  match n with
  | O => []
  | S n' =>
      match getline stream with
      | None => []
      | Some (line, rest) => line :: read_lines n' rest
      end
  end.

(** A line that holds no value: blank once trimmed, or a comment. *)
Definition blank_or_comment (line : string) : bool :=
  let line := trim line in
  empty line || front_is "#" line.

(** A line that [from_file] takes as the value of position [pos] (1 to 4):
    it holds a value; at the two port positions an [int] can be extracted
    from it; at the two path positions [wordexp] succeeds on it. *)
Definition accepted (pos : nat) (line : string) : bool :=
  negb (blank_or_comment line)
  && (if (3 <=? pos)%nat
      then match extract_int (trim line) with Some _ => true | None => false end
      else match expand_path (trim line) with Some _ => true | None => false end).

(** Lines that are accepted at the positions [pos], [pos + 1], ... *)
Fixpoint accepted_from (pos : nat) (lines : list string) : bool :=
  match lines with
  | [] => true
  | line :: lines' => accepted pos line && accepted_from (S pos) lines'
  end.

(** [from_file] after the file is open, on the lines it reads. *)
Definition from_lines (lines : list string) : behaviour RuntimeConfig :=
  match lines with
  | [] => Defined (Throws (runtime_error "Config file is empty"))
  | line1 :: lines =>
  if blank_or_comment line1
  then Defined (Throws (runtime_error "Line 1: llama bin path is required")) else
  match expand_path (trim line1) with
  | None => Undefined
  | Some bin_path =>
  match lines with
  | [] => Defined (Throws (runtime_error "Missing model path in config"))
  | line2 :: lines =>
  if blank_or_comment line2
  then Defined (Throws (runtime_error "Line 2: model path is required")) else
  match expand_path (trim line2) with
  | None => Undefined
  | Some model =>
  match lines with
  | [] => Defined (Throws (runtime_error "Missing llama-server port in config"))
  | line3 :: lines =>
  if blank_or_comment line3
  then Defined (Throws (runtime_error "Line 3: llama-server port is required")) else
  match extract_int (trim line3) with
  | None => Defined (Throws (runtime_error "Line 3: Invalid port number"))
  | Some port_x =>
  match lines with
  | [] => Defined (Throws (runtime_error "Missing app-server port in config"))
  | line4 :: _ =>
  if blank_or_comment line4
  then Defined (Throws (runtime_error "Line 4: app-server port is required")) else
  match extract_int (trim line4) with
  | None => Defined (Throws (runtime_error "Line 4: Invalid port number"))
  | Some port_y =>
      Defined (Returns {| llama_bin_path := bin_path;
                          model_path := model;
                          llama_server_port := port_x;
                          app_server_port := port_y |})
  end end end end end end end
  end.

End WithSystem.

(** The diagnostics of [from_file] by position: when the source ends
    before line [n], and when line [n] is there but holds no value. *)
Definition missing_diagnostic (n : nat) : string :=
  match n with
  | 1%nat => "Config file is empty"
  | 2%nat => "Missing model path in config"
  | 3%nat => "Missing llama-server port in config"
  | _ => "Missing app-server port in config"
  end.

Definition required_diagnostic (n : nat) : string :=
  match n with
  | 1%nat => "Line 1: llama bin path is required"
  | 2%nat => "Line 2: model path is required"
  | 3%nat => "Line 3: llama-server port is required"
  | _ => "Line 4: app-server port is required"
  end.

(** A diagnostic names line [n] when the number [n] occurs in it. *)
Definition names_line (n : nat) (what : string) : bool :=
  match find what (to_string (Z.of_nat n)) with
  | Some _ => true
  | None => false
  end.

(** A port field that is an integer: an optional minus sign and decimal
    digits, nothing else. *)
Definition is_integer (field : string) : bool :=
  let digits := if front_is "-" field then substr_from field 1 else field in
  negb (empty digits)
  && match find_first_not_of "0123456789" digits with
     | None => true
     | Some _ => false
     end.

(** The characters that [trim] strips: space, tab, carriage return and
    newline. *)
Definition trim_set : string :=
  String " " (String tab (String cr (String nl EmptyString))).

End RuntimeConfig.

(** ** llama_client.hpp *)

Module LlamaClient.

(** An [httplib::Client] as the header sets it up: the peer, and the
    timeouts in seconds once they have been set ([None]: the library's
    default). *)
Record Client : Type := {
  client_host : string;
  client_port : Z;
  read_timeout : option Z;
  write_timeout : option Z
}.

Definition Client_new (host : string) (port : Z) : Client :=
  {| client_host := host; client_port := port;
     read_timeout := None; write_timeout := None |}.

Definition set_read_timeout (c : Client) (seconds : Z) : Client :=
  {| client_host := client_host c; client_port := client_port c;
     read_timeout := Some seconds; write_timeout := write_timeout c |}.

Definition set_write_timeout (c : Client) (seconds : Z) : Client :=
  {| client_host := client_host c; client_port := client_port c;
     read_timeout := read_timeout c; write_timeout := Some seconds |}.

(** An [httplib::Response] as far as the header reads it. *)
Record Response : Type := {
  status : Z;
  body : string
}.

(** The network and the backend behind it.  A request yields a response,
    or none ([httplib::Result] converts to false: connection refused,
    timeout, ...); the call itself may also throw. *)
Class Transport : Type := {
  Get : Client -> string -> outcome (option Response);
  Post : Client -> string -> string -> string -> outcome (option Response)
}.

Record LlamaClient : Type := {
  host_ : string;
  port_ : Z;
  timeout_seconds_ : Z
}.

(** [parse_url] assigns [host_] and [port_]; here it returns them. *)
Definition parse_url (url : string) : outcome (string * Z) :=
  let clean_url := url in
  let clean_url :=
    match find clean_url "http://" with
    | Some O => substr_from clean_url 7
    | _ =>
        match find clean_url "https://" with
        | Some O => substr_from clean_url 8
        | _ => clean_url
        end
    end in
  let colon_pos := find_char clean_url ":" in
  match colon_pos with
  | Some colon_pos =>
      let host := substr clean_url 0 colon_pos in
      port <- stoi (substr_from clean_url (colon_pos + 1)) ;;
      Returns (host, port)
  | None => Returns (clean_url, 8080)
  end.

(** The constructor [LlamaClient(url, timeout)]; [timeout] defaults to
    300. *)
Definition construct (url : string) (timeout : Z) : outcome LlamaClient :=
  hp <- parse_url url ;;
  Returns {| host_ := fst hp; port_ := snd hp; timeout_seconds_ := timeout |}.

Definition get_server_url (self : LlamaClient) : string :=
  "http://" ++ host_ self ++ ":" ++ to_string (port_ self).

(** A port number written in decimal: decimal digits, at least one, that
    denote a number up to 65535.  Leading zeros are not excluded. *)
Definition decimal_port (P : string) : bool :=
  negb (empty P)
  && match find_first_not_of "0123456789" P with
     | None => true
     | Some _ => false
     end
  && (Z.of_N (scan_digits P 0) <=? 65535).

Section Operations.
Context {number_float : Type} {codec : Codec number_float} {net : Transport}.
Local Abbreviation json := (basic_json number_float).

(** The local [json request] of [complete]. *)
Definition complete_request (prompt : string) (max_tokens : Z)
  (temperature : number_float) : json :=
  init_list
    [ init_list [JString "prompt"; JString prompt];
      init_list [JString "n_predict"; JInt max_tokens];
      init_list [JString "temperature"; JFloat temperature];
      init_list [JString "stop";
                 array [JString "User:";
                        JString (String nl (String nl EmptyString))]] ].

(** [max_tokens] defaults to 512 and [temperature] to 0.7. *)
Definition complete (self : LlamaClient) (prompt : string) (max_tokens : Z)
  (temperature : number_float) : outcome json :=
  let request := complete_request prompt max_tokens temperature in
  let client := Client_new (host_ self) (port_ self) in
  let client := set_read_timeout client (timeout_seconds_ self) in
  let client := set_write_timeout client (timeout_seconds_ self) in
  request_body <- dump request ;;
  res <- Post client "/completion" request_body "application/json" ;;
  match res with
  | None => Throws (runtime_error "HTTP request failed: connection error")
  | Some res =>
      if negb (status res =? 200)
      then Throws (runtime_error
             ("HTTP request failed with status: " ++ to_string (status res)))
      else parse (body res)
  end.

(** The local [json request] of [chat]. *)
Definition chat_request (messages : json) (max_tokens : Z)
  (temperature : number_float) : json :=
  init_list
    [ init_list [JString "messages"; messages];
      init_list [JString "max_tokens"; JInt max_tokens];
      init_list [JString "temperature"; JFloat temperature] ].

Definition chat (self : LlamaClient) (messages : json) (max_tokens : Z)
  (temperature : number_float) : outcome json :=
  let request := chat_request messages max_tokens temperature in
  let client := Client_new (host_ self) (port_ self) in
  let client := set_read_timeout client (timeout_seconds_ self) in
  let client := set_write_timeout client (timeout_seconds_ self) in
  request_body <- dump request ;;
  res <- Post client "/v1/chat/completions" request_body "application/json" ;;
  match res with
  | None => Throws (runtime_error "HTTP request failed: connection error")
  | Some res =>
      if negb (status res =? 200)
      then Throws (runtime_error
             ("HTTP request failed with status: " ++ to_string (status res)))
      else parse (body res)
  end.

Definition is_alive (self : LlamaClient) : outcome bool :=
  try_catch_all
    (let client := Client_new (host_ self) (port_ self) in
     let client := set_read_timeout client 5 in
     let client := set_write_timeout client 5 in
     res <- Get client "/health" ;;
     Returns match res with
             | Some res => status res =? 200
             | None => false
             end)
    (Returns false).

Definition get_models (self : LlamaClient) : outcome json :=
  let client := Client_new (host_ self) (port_ self) in
  let client := set_read_timeout client (timeout_seconds_ self) in
  let client := set_write_timeout client (timeout_seconds_ self) in
  res <- Get client "/v1/models" ;;
  match res with
  | None => Throws (runtime_error "HTTP request failed: connection error")
  | Some res =>
      if negb (status res =? 200)
      then Throws (runtime_error
             ("Failed to get models, status: " ++ to_string (status res)))
      else parse (body res)
  end.

(** The [httplib::Client] that [complete], [chat] and [get_models] set
    up before their request. *)
Definition configured (self : LlamaClient) : Client :=
  {| client_host := host_ self; client_port := port_ self;
     read_timeout := Some (timeout_seconds_ self);
     write_timeout := Some (timeout_seconds_ self) |}.

(** The error policy of an operation, read on the reply to its request:
    no response is a transport error, a status other than 200 is a
    backend error worded with [status_message] and the status, a body
    that does not parse is a decode error. *)
Definition error_policy (status_message : string)
  (reply : outcome (option Response)) (result : outcome json) : Prop :=
  (reply = Returns None ->
   result = Throws (runtime_error "HTTP request failed: connection error"))
  /\ (forall res, reply = Returns (Some res) -> status res <> 200 ->
       result = Throws (runtime_error
                  (status_message ++ to_string (status res))))
  /\ (forall res what, reply = Returns (Some res) -> status res = 200 ->
       parse_text (body res) = Failed what ->
       result = Throws (StdException ParseError what)).

End Operations.

End LlamaClient.

(** ** app_server_base.hpp *)

Module AppServerBase.

(** [httplib::Request] and [httplib::Response], as far as the route
    handlers touch them. *)
Record Request : Type := {
  req_body : string
}.

Record Response : Type := {
  res_status : Z;
  res_body : string;
  res_content_type : option string
}.

Definition set_status (res : Response) (code : Z) : Response :=
  {| res_status := code; res_body := res_body res;
     res_content_type := res_content_type res |}.

Definition set_content (res : Response) (s content_type : string) : Response :=
  {| res_status := res_status res; res_body := s;
     res_content_type := Some content_type |}.

(** What a route handler leaves behind: the response object as it stands
    when the handler is left, and the exception that left it, if one did
    (it then reaches the listener that called the handler). *)
Record Handled : Type := {
  response : Response;
  escaped : option thrown
}.

Inductive Method : Type := GET | POST.

Section Server.
Context {number_float : Type} {codec : Codec number_float}.
Local Abbreviation json := (basic_json number_float).

(** The derived class: the state of the server object as [Derived] sees
    it, and its [process_request], which may change that state and may
    throw. *)
Variable Derived : Type.
Variable process_request : json -> Derived -> outcome json * Derived.

(** The server object together with a ghost record of the requests that
    were handed to [process_request], latest first. *)
Record Server : Type := {
  derived : Derived;
  invocations : list json
}.

Definition call_process_request (request : json) (srv : Server)
  : outcome json * Server :=
  let '(result, d) := process_request request (derived srv) in
  (result, {| derived := d; invocations := request :: invocations srv |}).

Definition Handler : Type := Request -> Response -> Server -> Handled * Server.

(** The handler of [GET /health]. *)
Definition health_route : Handler := fun _ res srv =>
  let response_ :=
    init_list [ init_list [JString "status"; JString "ok"];
                init_list [JString "service"; JString "app-server"] ] in
  match dump response_ with
  | Returns s =>
      ({| response := set_content res s "application/json";
          escaped := None |}, srv)
  | Throws e => ({| response := res; escaped := Some e |}, srv)
  end.

(** The body of the [try] block of [POST /api]. *)
Definition api_try (req : Request) (res : Response) (srv : Server)
  : outcome unit * Response * Server :=
  match parse (req_body req) with
  | Throws e => (Throws e, res, srv)
  | Returns request =>
      let '(result, srv) := call_process_request request srv in
      match result with
      | Throws e => (Throws e, res, srv)
      | Returns response_ =>
          match dump response_ with
          | Throws e => (Throws e, res, srv)
          | Returns s =>
              (Returns tt, set_content res s "application/json", srv)
          end
      end
  end.

(** The handler of [POST /api]: the [try] block and its
    [catch (const std::exception& e)]. *)
Definition api_route : Handler := fun req res srv =>
  let '(tried, res, srv) := api_try req res srv in
  match tried with
  | Returns _ => ({| response := res; escaped := None |}, srv)
  | Throws (StdException _ what) =>
      let error :=
        init_list [ init_list [JString "error"; JString what];
                    init_list [JString "status"; JString "failed"] ] in
      let res := set_status res 500 in
      match dump error with
      | Returns s =>
          ({| response := set_content res s "application/json";
              escaped := None |}, srv)
      | Throws e => ({| response := res; escaped := Some e |}, srv)
      end
  | Throws Foreign => ({| response := res; escaped := Some Foreign |}, srv)
  end.

(** [setup_routes]: the routes registered with the listener. *)
Definition setup_routes : list (Method * string * Handler) :=
  [ (GET, "/health", health_route);
    (POST, "/api", api_route) ].

End Server.

Arguments derived {number_float Derived} _.
Arguments invocations {number_float Derived} _.

(** The data members that the constructor initialises: the configuration
    and the client for llama-server (the listener starts without state of
    its own). *)
Record Members : Type := {
  config_ : RuntimeConfig.RuntimeConfig;
  llama_client_ : LlamaClient.LlamaClient
}.

(** The constructor [AppServerBase(cfg)]: [config_] is a copy of [cfg],
    [llama_client_] is made from the configuration's llama-server URL with
    the default timeout of 300 seconds.  The constructor of [LlamaClient]
    may throw, and so may this one. *)
Definition construct (cfg : RuntimeConfig.RuntimeConfig) : outcome Members :=
  client <- LlamaClient.construct (RuntimeConfig.get_llama_server_url cfg) 300 ;;
  Returns {| config_ := cfg; llama_client_ := client |}.

Definition get_llama_client (self : Members) : LlamaClient.LlamaClient :=
  llama_client_ self.

Definition get_config (self : Members) : RuntimeConfig.RuntimeConfig :=
  config_ self.

End AppServerBase.

(** ** generator.cpp: the text functions of ProjectGenerator *)

Module ProjectGenerator.

(** The loop of [read_file] on an open stream: every line that [getline]
    delivers is appended to the content, followed by a newline.  Each
    [getline] on a stream that has not failed consumes at least one
    character, so a fuel of the stream's length plus one is never used
    up. *)
Fixpoint read_lines_into (fuel : nat) (file content : string) : string :=
  match fuel with
  | O => content
  | S fuel' =>
      match getline file with
      | None => content
      | Some (line, file') =>
          read_lines_into fuel' file' (content ++ line ++ String nl EmptyString)
      end
  end.

(** [read_file(filepath)], given what opening the file yields. *)
Definition read_file (open : string -> option string) (filepath : string)
  : outcome string :=
  match open filepath with
  | None => Throws (runtime_error ("Failed to read file: " ++ filepath))
  | Some file =>
      Returns (read_lines_into (S (String.length file)) file EmptyString)
  end.

(** [s.find(pattern, pos)]; [None] is [npos]. *)
Definition find_from (s pattern : string) (pos : nat) : option nat :=
  String.index pos pattern s.

(** [s.replace(pos, n, str)]: the [n] characters from [pos] on (fewer if
    the string ends before) give way to [str]. *)
Definition replace (s : string) (pos n : nat) (str : string) : string :=
  take pos s ++ str ++ drop (pos + n) s.

(** One of the two loops of [replace_placeholders]:

      while ((pos = result.find(pattern, pos)) != npos)
        { result.replace(pos, n, replacement); pos += replacement.length(); }

    where [n] is the length of [pattern], written out as a number in the
    source.  Every turn leaves at least [n] characters fewer behind [pos],
    so a fuel of the length of the text plus one is never used up. *)
Fixpoint replace_loop (fuel : nat) (pattern : string) (n : nat)
  (replacement result : string) (pos : nat) : string :=
  match fuel with
  | O => result
  | S fuel' =>
      match find_from result pattern pos with
      | None => result
      | Some pos =>
          replace_loop fuel' pattern n replacement
            (replace result pos n replacement)
            (pos + String.length replacement)
      end
  end.

Definition replace_every (pattern : string) (n : nat)
  (replacement content : string) : string :=
  replace_loop (S (String.length content)) pattern n replacement content 0.

(** [replace_placeholders(content)]; [date] is what [get_current_date()]
    returns. *)
Definition replace_placeholders (project_name_ date content : string) : string :=
  let result := content in
  let result := replace_every "{{PROJECT_NAME}}" 16 project_name_ result in
  let result := replace_every "{{DATE}}" 8 date result in
  result.

(** *** Words to state what these functions compute *)

(** A text with a newline after its last line, if it has a line. *)
Fixpoint with_final_newline (s : string) : string :=
  match s with
  | EmptyString => EmptyString
  | String c s' =>
      match s' with
      | EmptyString =>
          if Ascii.eqb c nl then s else String c (String nl EmptyString)
      | String _ _ => String c (with_final_newline s')
      end
  end.

(** Pieces of text with holes between them: [Some a] is the text [a],
    [None] is a hole. *)
Fixpoint fill (hole : string) (pieces : list (option string)) : string :=
  match pieces with
  | [] => EmptyString
  | Some a :: pieces' => a ++ fill hole pieces'
  | None :: pieces' => hole ++ fill hole pieces'
  end.

(** A template: text, and the two placeholders. *)
Inductive token : Type :=
| Text (a : string)
| ProjectName
| Date.

Fixpoint template (tokens : list token) : string :=
  match tokens with
  | [] => EmptyString
  | Text a :: tokens' => a ++ template tokens'
  | ProjectName :: tokens' => "{{PROJECT_NAME}}" ++ template tokens'
  | Date :: tokens' => "{{DATE}}" ++ template tokens'
  end.

Fixpoint instantiate (project_name date : string) (tokens : list token) : string :=
  match tokens with
  | [] => EmptyString
  | Text a :: tokens' => a ++ instantiate project_name date tokens'
  | ProjectName :: tokens' => project_name ++ instantiate project_name date tokens'
  | Date :: tokens' => date ++ instantiate project_name date tokens'
  end.

(** A text at none of whose characters an occurrence of the pattern
    starts, whatever follows the text. *)
Definition skipped (pattern a : string) : Prop :=
  forall rest,
    String.index 0 pattern (a ++ rest)
    = option_map (fun k => (String.length a + k)%nat) (String.index 0 pattern rest).

(** The texts of a template have no opening brace. *)
Fixpoint braceless (tokens : list token) : bool :=
  match tokens with
  | [] => true
  | Text a :: tokens' =>
      match find_char a "{" with
      | None => braceless tokens'
      | Some _ => false
      end
  | _ :: tokens' => braceless tokens'
  end.

End ProjectGenerator.

(** ** A concrete setting

    One instance of every parameter, to run the definitions on: a file
    system with a few configuration files, a small JSON codec, a backend
    that listens on port 8080 only, and a derived server class. *)

Module Sample.

Import RuntimeConfig LlamaClient AppServerBase.

Definition line (text rest : string) : string := text ++ String nl rest.

Definition config_txt : string :=
  line "/usr/local/bin" (line "/models/m.gguf" (line "8080" (line "8081" EmptyString))).

(** The same configuration followed by text that is no configuration. *)
Definition config_with_tail : string :=
  config_txt ++ line "# notes" (line "not a port" EmptyString).

(** A source that ends after its first line. *)
Definition truncated_txt : string := line "/usr/local/bin" EmptyString.

(** A source whose second line is blank. *)
Definition blank_second_txt : string :=
  line "/usr/local/bin" (line "   " (line "8080" (line "8081" EmptyString))).

(** A source whose third line starts with digits and goes on with
    letters. *)
Definition trailing_txt : string :=
  line "/usr/local/bin" (line "/models/m.gguf" (line "8080abc" (line "8081" EmptyString))).

(** A source whose third line has no digit to start with. *)
Definition letters_txt : string :=
  line "/usr/local/bin" (line "/models/m.gguf" (line "port" (line "8081" EmptyString))).

Definition files : list (string * string) :=
  [ ("config.txt", config_txt);
    ("config_with_tail.txt", config_with_tail);
    ("truncated.txt", truncated_txt);
    ("blank_second.txt", blank_second_txt);
    ("trailing.txt", trailing_txt);
    ("letters.txt", letters_txt) ].

Fixpoint assoc (key : string) (table : list (string * string)) : option string :=
  match table with
  | [] => None
  | (k, v) :: table' => if String.eqb key k then Some v else assoc key table'
  end.

(** The characters that [wordexp] refuses outside quotes. *)
Definition refused : string := "|&;<>(){}".

Fixpoint has_refused (s : string) : bool :=
  match s with
  | EmptyString => false
  | String c s' => mem_char c refused || has_refused s'
  end.

(** No sample path has anything to expand: [wordexp] fails on a path with
    a character it refuses, and the expansion of any other is the one word
    it consists of.  The backend binary is executable, the model is
    readable, nothing else exists. *)
Definition system : System :=
  {| ifstream_open := fun path => assoc path files;
     wordexp := fun path => if has_refused path then None else Some [path];
     access := fun path mode =>
       match mode with
       | X_OK => if String.eqb path "/usr/local/bin/llama-server" then 0 else -1
       | R_OK => if String.eqb path "/models/m.gguf" then 0 else -1
       end |}.

(** Integers stand in for floating-point numbers. *)
Definition number : Type := Z.

Definition quote : ascii := "034"%char.

Fixpoint render (j : basic_json number) : string :=
  match j with
  | JNull => "null"
  | JBool b => if b then "true" else "false"
  | JInt n => to_string n
  | JFloat x => to_string x
  | JString s => String quote (s ++ String quote EmptyString)
  | JArray items =>
      "[" ++ (fix go (l : list (basic_json number)) : string :=
                match l with
                | [] => EmptyString
                | x :: l' =>
                    render x ++ match l' with [] => EmptyString | _ => "," ++ go l' end
                end) items ++ "]"
  | JObject members =>
      "{" ++ (fix go (l : list (string * basic_json number)) : string :=
                match l with
                | [] => EmptyString
                | (k, v) :: l' =>
                    String quote (k ++ String quote (":" ++ render v))
                    ++ match l' with [] => EmptyString | _ => "," ++ go l' end
                end) members ++ "}"
  end.

(** The codec reads scalar documents only and writes any value. *)
Definition read (text : string) : attempt (basic_json number) :=
  if String.eqb text "null" then Done JNull
  else if String.eqb text "true" then Done (JBool true)
  else if String.eqb text "false" then Done (JBool false)
  else if is_integer text
       then match scan_int text with
            | Some n => Done (JInt n)
            | None => Failed "syntax error while parsing value"
            end
       else Failed "syntax error while parsing value".

Definition codec : Codec number :=
  {| parse_text := read; dump_text := fun j => Done (render j) |}.

(** A backend on port 8080: healthy, still loading its models, and
    answering completions with a page that is not JSON.  No other port
    answers. *)
Definition backend : Transport :=
  {| Get := fun client path =>
       if client_port client =? 8080 then
         if String.eqb path "/health"
         then Returns (Some {| status := 200; body := "ok" |})
         else Returns (Some {| status := 503; body := "loading" |})
       else Returns None;
     Post := fun client path request_body content_type =>
       if client_port client =? 8080 then
         if String.eqb path "/completion"
         then Returns (Some {| status := 200; body := "<html>" |})
         else Returns (Some {| status := 200; body := "null" |})
       else Returns None |}.

(** No backend at all. *)
Definition offline : Transport :=
  {| Get := fun _ _ => Returns None;
     Post := fun _ _ _ _ => Returns None |}.

Definition on_8080 : LlamaClient :=
  {| host_ := "localhost"; port_ := 8080; timeout_seconds_ := 300 |}.

Definition on_9999 : LlamaClient :=
  {| host_ := "localhost"; port_ := 9999; timeout_seconds_ := 300 |}.

(** A derived class that counts the requests it answered.  It echoes
    numbers, fails with a [std::runtime_error] on booleans, with a thrown
    integer on [null], and answers anything else with [null]. *)
Definition process_request (request : basic_json number) (answered : nat)
  : outcome (basic_json number) * nat :=
  match request with
  | JInt n => (Returns (JInt n), S answered)
  | JBool _ => (Throws (runtime_error "no booleans"), answered)
  | JNull => (Throws Foreign, answered)
  | _ => (Returns JNull, S answered)
  end.

Definition fresh_server : @Server number nat := {| derived := O; invocations := [] |}.

(** The response object as the listener hands it to a handler. *)
Definition fresh_response : Response :=
  {| res_status := -1; res_body := EmptyString; res_content_type := None |}.

End Sample.

(** ** More of the concrete setting: sources with Windows line ends and
    with ports that no [int] holds *)

Module MoreSamples.

Import RuntimeConfig.

Definition crlf (text rest : string) : string :=
  text ++ String cr (String nl rest).

(** The sample configuration as an editor on Windows saves it, the model
    path indented. *)
Definition config_crlf : string :=
  crlf "/usr/local/bin" (crlf "   /models/m.gguf" (crlf "8080" (crlf "8081" EmptyString))).

(** A third line that holds a number too large for an [int]. *)
Definition overflow_txt : string :=
  Sample.line "/usr/local/bin"
    (Sample.line "/models/m.gguf" (Sample.line "99999999999" (Sample.line "8081" EmptyString))).

(** A first line on which [wordexp] fails, and nothing after it. *)
Definition pipe_txt : string := Sample.line "/opt/a|b" EmptyString.

Definition files : list (string * string) :=
  [ ("config.txt", Sample.config_txt);
    ("config_crlf.txt", config_crlf);
    ("overflow.txt", overflow_txt);
    ("pipe.txt", pipe_txt) ].

Definition system : System :=
  {| ifstream_open := fun path => Sample.assoc path files;
     wordexp := wordexp Sample.system;
     access := access Sample.system |}.

(** A codec that refuses to write a string that holds a byte above 127,
    in the way [dump] refuses a string that is not valid UTF-8. *)
Fixpoint plain (s : string) : bool :=
  match s with
  | EmptyString => true
  | String c s' => (N_of_ascii c <? 128)%N && plain s'
  end.

Fixpoint writable (j : basic_json Sample.number) : bool :=
  match j with
  | JString s => plain s
  | JArray items =>
      (fix all (l : list (basic_json Sample.number)) : bool :=
         match l with
         | [] => true
         | x :: l' => writable x && all l'
         end) items
  | JObject members =>
      (fix all (l : list (string * basic_json Sample.number)) : bool :=
         match l with
         | [] => true
         | (k, v) :: l' => plain k && writable v && all l'
         end) members
  | _ => true
  end.

Definition strict_codec : Codec Sample.number :=
  {| parse_text := Sample.read;
     dump_text := fun j =>
       if writable j then Done (Sample.render j)
       else Failed "invalid UTF-8 byte" |}.

(** A derived class that answers every request with a string of one byte,
    255. *)
Definition process_request (request : basic_json Sample.number) (answered : nat)
  : outcome (basic_json Sample.number) * nat :=
  (Returns (JString (String "255"%char EmptyString)), S answered).

(** A derived class that fails on every request with a
    [std::runtime_error] whose message is one byte, 255. *)
Definition failing_request (request : basic_json Sample.number) (answered : nat)
  : outcome (basic_json Sample.number) * nat :=
  (Throws (runtime_error (String "255"%char EmptyString)), answered).

(** A backend that checks what it is sent: the POST of the text
    [expected] as [application/json] to [route] is answered with the
    document [null], any other request with status 400. *)
Definition strict_backend (route expected : string) : LlamaClient.Transport :=
  {| LlamaClient.Get := fun _ _ =>
       Returns (Some {| LlamaClient.status := 400;
                        LlamaClient.body := "bad request" |});
     LlamaClient.Post := fun _ path request_body content_type =>
       if String.eqb path route
          && String.eqb request_body expected
          && String.eqb content_type "application/json"
       then Returns (Some {| LlamaClient.status := 200;
                             LlamaClient.body := "null" |})
       else Returns (Some {| LlamaClient.status := 400;
                             LlamaClient.body := "bad request" |}) |}.

(** The completion request for the prompt [Hello], 16 tokens and the
    temperature 700, and the chat request for no messages, as the sample
    codec writes them. *)
Definition hello_request_body : string :=
  Sample.render
    (JObject [ ("n_predict", JInt 16);
               ("prompt", JString "Hello");
               ("stop", JArray [JString "User:";
                                JString (String nl (String nl EmptyString))]);
               ("temperature", JFloat (700 : Sample.number)) ]).

Definition empty_chat_body : string :=
  Sample.render
    (JObject [ ("max_tokens", JInt 16);
               ("messages", JArray []);
               ("temperature", JFloat (700 : Sample.number)) ]).

End MoreSamples.

(* ================================================================== *)
(** * Part II: properties *)
(* ================================================================== *)

(** ** Decimal numerals: [scan_int] reads back what [to_string] writes *)

Section DecimalFacts.

Lemma digit_char_facts (d : N) :
  (d < 10)%N ->
  digit_value (digit_char d) = Some d
  /\ isspace (digit_char d) = false
  /\ Ascii.eqb (digit_char d) "-" = false
  /\ Ascii.eqb (digit_char d) "+" = false.
Proof.
  intros Hd.
  assert (Hcases : (d = 0 \/ d = 1 \/ d = 2 \/ d = 3 \/ d = 4 \/ d = 5 \/ d = 6
                    \/ d = 7 \/ d = 8 \/ d = 9)%N) by lia.
  repeat (destruct Hcases as [-> | Hcases]; [repeat split; reflexivity |]).
  subst d; repeat split; reflexivity.
Qed.

Lemma digits_from_unfold (fuel : nat) (n : N) (acc : string) :
  digits_from (S fuel) n acc =
  if (n / 10 =? 0)%N then String (digit_char (n mod 10)) acc
  else digits_from fuel (n / 10) (String (digit_char (n mod 10)) acc).
Proof. reflexivity. Qed.

(** A numeral starts with a digit. *)
Lemma digits_from_head (fuel : nat) :
  forall n acc, exists d rest,
    (d < 10)%N /\ digits_from (S fuel) n acc = String (digit_char d) rest.
Proof.
  induction fuel as [| fuel IH]; intros n acc; rewrite digits_from_unfold.
  - exists (n mod 10)%N, acc. split; [apply N.mod_lt; discriminate |].
    destruct (n / 10 =? 0)%N; reflexivity.
  - destruct (n / 10 =? 0)%N.
    + exists (n mod 10)%N, acc. split; [apply N.mod_lt; discriminate | reflexivity].
    + apply IH.
Qed.

(** Scanning the digits of [n] shifts the accumulator and adds [n]. *)
Lemma scan_digits_digits_from (fuel : nat) :
  forall n acc, (n < 2 ^ N.of_nat (S fuel))%N ->
    exists k, forall a,
      scan_digits (digits_from (S fuel) n acc) a
      = scan_digits acc (a * 10 ^ k + n)%N.
Proof.
  induction fuel as [| fuel IH]; intros n acc Hn; rewrite digits_from_unfold.
  - change (2 ^ N.of_nat 1)%N with 2%N in Hn.
    assert (Hq : (n / 10 = 0)%N) by (apply N.div_small; lia).
    rewrite Hq. exists 1%N. intros a. cbn [scan_digits N.eqb].
    destruct (digit_char_facts (n mod 10)) as [-> _]; [apply N.mod_lt; discriminate |].
    rewrite N.mod_small by lia. rewrite N.pow_1_r. reflexivity.
  - assert (Hmod : (n mod 10 < 10)%N) by (apply N.mod_lt; discriminate).
    destruct (digit_char_facts _ Hmod) as [Hval _].
    destruct (n / 10 =? 0)%N eqn:Hq.
    + apply N.eqb_eq in Hq. exists 1%N. intros a. cbn [scan_digits].
      rewrite Hval, N.pow_1_r.
      f_equal. pose proof (N.Div0.div_mod n 10) as Hdm.
      rewrite Hq in Hdm. lia.
    + rewrite Nat2N.inj_succ, N.pow_succ_r' in Hn.
      pose proof (N.Div0.div_mod n 10) as Hdm.
      destruct (IH (n / 10)%N (String (digit_char (n mod 10)) acc)) as [k Hk].
      { remember (2 ^ N.of_nat (S fuel))%N as p.
        remember (n / 10)%N as q. remember (n mod 10)%N as r. lia. }
      exists (N.succ k). intros a. rewrite Hk. cbn [scan_digits].
      rewrite Hval. f_equal. rewrite N.pow_succ_r'.
      remember (n / 10)%N as q. remember (n mod 10)%N as r.
      remember (10 ^ k)%N as t. lia.
Qed.

Lemma scan_digits_decimal (n : N) : scan_digits (decimal n) 0 = n.
Proof.
  unfold decimal.
  destruct (scan_digits_digits_from (N.to_nat (N.size n)) n EmptyString) as [k Hk].
  - rewrite Nat2N.inj_succ, N2Nat.id, N.pow_succ_r'.
    pose proof (N.size_gt n). lia.
  - rewrite Hk. reflexivity.
Qed.

Lemma scan_int_decimal (n : N) : scan_int (decimal n) = Some (Z.of_N n).
Proof.
  pose proof (scan_digits_decimal n) as Hscan.
  unfold decimal in *.
  destruct (digits_from_head (N.to_nat (N.size n)) n EmptyString)
    as (d & rest & Hd & Hhead).
  rewrite Hhead in *.
  destruct (digit_char_facts d Hd) as (Hval & Hsp & Hminus & Hplus).
  unfold scan_int. cbn [skip_space]. rewrite Hsp, Hminus, Hplus, Hval, Hscan.
  reflexivity.
Qed.

Lemma scan_int_to_string (z : Z) : scan_int (to_string z) = Some z.
Proof.
  unfold to_string. destruct (z <? 0) eqn:Hneg.
  - apply Z.ltb_lt in Hneg.
    pose proof (scan_digits_decimal (Z.to_N (- z))) as Hscan.
    unfold decimal in *.
    destruct (digits_from_head (N.to_nat (N.size (Z.to_N (- z)))) (Z.to_N (- z))
                EmptyString) as (d & rest & Hd & Hhead).
    rewrite Hhead in *.
    destruct (digit_char_facts d Hd) as (Hval & _).
    unfold scan_int. cbn [skip_space].
    change (isspace "-") with false. cbv iota.
    change (Ascii.eqb "-" "-") with true. cbv iota.
    rewrite Hval, Hscan. f_equal. lia.
  - apply Z.ltb_ge in Hneg. rewrite scan_int_decimal. f_equal. lia.
Qed.

Lemma to_string_inj (x y : Z) : to_string x = to_string y -> x = y.
Proof.
  intros H. pose proof (scan_int_to_string x) as Hx.
  rewrite H, scan_int_to_string in Hx. congruence.
Qed.

Lemma stoi_to_string (z : Z) :
  in_int_range z = true -> stoi (to_string z) = Returns z.
Proof. intros H. unfold stoi. rewrite scan_int_to_string, H. reflexivity. Qed.


End DecimalFacts.

(** ** std::string facts used by [parse_url] *)

Section StringFacts.

Lemma prefix_empty (s : string) : String.prefix EmptyString s = true.
Proof. destruct s; reflexivity. Qed.

Lemma find_http_scheme (rest : string) :
  find ("http://" ++ rest) "http://" = Some O.
Proof. unfold find. cbn. rewrite prefix_empty. reflexivity. Qed.

Lemma find_char_append (c : ascii) (s rest : string) :
  find_char s c = None ->
  find_char (s ++ String c rest) c = Some (String.length s).
Proof.
  induction s as [| c0 s IH]; cbn [find_char append String.length]; intros H.
  - rewrite Ascii.eqb_refl. reflexivity.
  - destruct (Ascii.eqb c0 c); [discriminate |].
    destruct (find_char s c); [discriminate |].
    rewrite IH by reflexivity. reflexivity.
Qed.

Lemma take_append (s rest : string) : take (String.length s) (s ++ rest) = s.
Proof.
  induction s as [| c s IH]; cbn [take append String.length].
  - destruct rest; reflexivity.
  - rewrite IH. reflexivity.
Qed.

Lemma drop_append (s rest : string) : drop (String.length s) (s ++ rest) = rest.
Proof. induction s as [| c s IH]; cbn [drop append String.length]; auto. Qed.

Lemma drop_past_separator (c : ascii) (s rest : string) :
  drop (String.length s + 1) (s ++ String c rest) = rest.
Proof.
  induction s as [| c0 s IH]; cbn [drop append String.length Nat.add]; auto.
Qed.

End StringFacts.

(** ** LlamaClient: the URL survives construction *)

Section ServerUrl.

Import LlamaClient.

Lemma parse_url_host_port (host : string) (port : Z) :
  find_char host ":" = None ->
  in_int_range port = true ->
  parse_url ("http://" ++ host ++ ":" ++ to_string port) = Returns (host, port).
Proof.
  intros Hhost Hport. unfold parse_url.
  rewrite find_http_scheme.
  change (substr_from ("http://" ++ host ++ ":" ++ to_string port) 7)
    with (host ++ String ":" (to_string port)).
  rewrite (find_char_append ":" host _ Hhost).
  unfold substr, substr_from. cbn [drop].
  rewrite take_append, drop_past_separator, stoi_to_string by assumption.
  reflexivity.
Qed.

Lemma parse_url_host_only (host : string) :
  find_char host ":" = None ->
  parse_url ("http://" ++ host) = Returns (host, 8080).
Proof.
  intros Hhost. unfold parse_url.
  rewrite find_http_scheme.
  change (substr_from ("http://" ++ host) 7) with host.
  rewrite Hhost. reflexivity.
Qed.

(** C9, as the code has it.  For a host [H] without a colon and a port
    number [p] (0 to 65535) written as [std::to_string] writes it (no
    sign, no leading zero), a client constructed from ["http://H:p"]
    reports exactly that string as its server URL; constructed from
    ["http://H"], without a port, it reports ["http://H:8080"]. *)
Theorem get_server_url_round_trip (H : string) (p timeout : Z) :
  find_char H ":" = None ->
  0 <= p <= 65535 ->
  (exists self,
      construct ("http://" ++ H ++ ":" ++ to_string p) timeout = Returns self
      /\ get_server_url self = "http://" ++ H ++ ":" ++ to_string p)
  /\ (exists self,
         construct ("http://" ++ H) timeout = Returns self
         /\ get_server_url self = "http://" ++ H ++ ":8080").
Proof.
  intros Hhost Hp. split.
  - unfold construct. rewrite parse_url_host_port.
    + eexists. split; reflexivity.
    + assumption.
    + unfold in_int_range, INT_MIN, INT_MAX. lia.
  - unfold construct. rewrite parse_url_host_only by assumption.
    eexists. split; reflexivity.
Qed.

Lemma get_server_url_round_trip_witness :
  (exists self,
      construct ("http://" ++ "localhost" ++ ":" ++ to_string 8080) 300
      = Returns self
      /\ get_server_url self = "http://" ++ "localhost" ++ ":" ++ to_string 8080)
  /\ (exists self,
         construct ("http://" ++ "localhost") 300 = Returns self
         /\ get_server_url self = "http://" ++ "localhost" ++ ":8080").
Proof.
  apply (get_server_url_round_trip "localhost" 8080 300).
  - reflexivity.
  - lia.
Defined.

(** A port written with leading zeros is read as the same number and
    reported without them. *)
Example get_server_url_leading_zeros :
  (self <- construct "http://localhost:08080" 300 ;; Returns (get_server_url self))
  = Returns "http://localhost:8080".
Proof. reflexivity. Qed.

(** The host [localhost] is not empty and holds no colon, and [08080] is
    a port number in decimal; yet the client constructed from
    [http://localhost:08080] does not report that string: it reports
    [http://localhost:8080]. *)
Lemma leading_zeros_not_reported :
  empty "localhost" = false
  /\ find_char "localhost" ":" = None
  /\ decimal_port "08080" = true
  /\ exists self,
       construct ("http://" ++ "localhost" ++ ":" ++ "08080") 300 = Returns self
       /\ get_server_url self = "http://localhost:8080"
       /\ get_server_url self <> "http://" ++ "localhost" ++ ":" ++ "08080".
Proof.
  split; [reflexivity |]. split; [reflexivity |]. split; [reflexivity |].
  exists {| host_ := "localhost"; port_ := 8080; timeout_seconds_ := 300 |}.
  split; [reflexivity |]. split; [reflexivity |]. discriminate.
Qed.

End ServerUrl.

(** ** RuntimeConfig: what [from_file] reads *)

Section ConfigLines.

Import RuntimeConfig.

Variable os : System.

Ltac read_step :=
  match goal with
  | |- context [getline ?s] => destruct (getline s) as [[? ?] |]
  | |- context [if ?b then _ else _] => destruct b
  | |- context [match extract_int ?l with _ => _ end] => destruct (extract_int l)
  | |- context [match expand_path ?o ?l with _ => _ end] => destruct (expand_path o l)
  end;
  cbn [read_lines from_lines]; try reflexivity.

(** [from_file] is a function of the first four lines of the file. *)
Lemma from_file_lines (path content : string) :
  ifstream_open os path = Some content ->
  from_file os path = from_lines os (read_lines 4 content).
Proof.
  intros Hopen. unfold from_file. rewrite Hopen.
  unfold blank_or_comment. cbn [read_lines from_lines].
  repeat read_step.
Qed.

Lemma accepted_value (pos : nat) (line : string) :
  accepted os pos line = true -> blank_or_comment line = false.
Proof.
  unfold accepted. intros H. apply andb_prop in H as [H _].
  now apply negb_true_iff in H.
Qed.

Lemma accepted_port (pos : nat) (line : string) :
  accepted os pos line = true -> (3 <= pos)%nat ->
  exists port, extract_int (trim line) = Some port.
Proof.
  unfold accepted. intros H Hpos. apply andb_prop in H as [_ H].
  apply Nat.leb_le in Hpos. rewrite Hpos in H.
  destruct (extract_int (trim line)) as [port |]; [eauto | discriminate].
Qed.

Lemma accepted_path (pos : nat) (line : string) :
  accepted os pos line = true -> (pos < 3)%nat ->
  exists word, expand_path os (trim line) = Some word.
Proof.
  unfold accepted. intros H Hpos. apply andb_prop in H as [_ H].
  apply Nat.leb_gt in Hpos. rewrite Hpos in H.
  destruct (expand_path os (trim line)) as [word |]; [eauto | discriminate].
Qed.


End ConfigLines.

(** What the accepted lines before a position give to [from_lines]. *)
Ltac use_accepted :=
  repeat match goal with
         | H : RuntimeConfig.accepted _ _ ?l = true
           |- context [RuntimeConfig.blank_or_comment ?l] =>
             rewrite (accepted_value _ _ _ H)
         | H : RuntimeConfig.accepted _ ?pos ?l = true
           |- context [RuntimeConfig.expand_path _ (RuntimeConfig.trim ?l)] =>
             let word := fresh "word" in
             destruct (accepted_path _ pos l H) as [word ->]; [lia |]
         | H : RuntimeConfig.accepted _ ?pos ?l = true
           |- context [extract_int (RuntimeConfig.trim ?l)] =>
             let port := fresh "port" in
             destruct (accepted_port _ pos l H) as [port ->]; [lia |]
         end.

Section ConfigLinesAccepted.

Import RuntimeConfig.

Variable os : System.

(** Four accepted lines make a configuration. *)
Lemma from_lines_accepted (lines : list string) :
  List.length lines = 4%nat ->
  accepted_from os 1 lines = true ->
  exists c, from_lines os lines = Defined (Returns c).
Proof.
  intros Hlen Hacc.
  destruct lines as [| l1 [| l2 [| l3 [| l4 [| ? ?]]]]]; try discriminate.
  cbn [accepted_from] in Hacc.
  repeat (apply andb_prop in Hacc as [? Hacc]).
  cbn [from_lines]. use_accepted. eauto.
Qed.

(** When [before] holds accepted lines and nothing follows, the
    diagnostic is the one for the first absent position. *)
Lemma from_lines_absent (before : list string) :
  (List.length before < 4)%nat ->
  accepted_from os 1 before = true ->
  from_lines os before
  = Defined (Throws (runtime_error (missing_diagnostic (S (List.length before))))).
Proof.
  intros Hlen Hacc.
  destruct before as [| l1 [| l2 [| l3 [| l4 ?]]]];
    cbn [List.length] in Hlen; try lia;
    cbn [accepted_from] in Hacc;
    repeat (apply andb_prop in Hacc as [? Hacc]);
    cbn [from_lines List.length missing_diagnostic];
    use_accepted; reflexivity.
Qed.

(** When the line after [before] holds no value, the diagnostic is the
    one that requires a value at that position. *)
Lemma from_lines_blank (before : list string) (line : string) (after : list string) :
  (List.length before < 4)%nat ->
  accepted_from os 1 before = true ->
  blank_or_comment line = true ->
  from_lines os (before ++ line :: after)
  = Defined (Throws (runtime_error (required_diagnostic (S (List.length before))))).
Proof.
  intros Hlen Hacc Hblank.
  destruct before as [| l1 [| l2 [| l3 [| l4 ?]]]];
    cbn [List.length] in Hlen; try lia;
    cbn [accepted_from] in Hacc;
    repeat (apply andb_prop in Hacc as [? Hacc]);
    cbn [from_lines List.length required_diagnostic app];
    use_accepted; rewrite ?Hblank; reflexivity.
Qed.

(** When [wordexp] fails on the path line after [before], nothing is
    defined about [from_file]: it neither returns nor throws in the
    model. *)
Lemma from_lines_wordexp_fails (before : list string) (line : string)
  (after : list string) :
  (List.length before < 2)%nat ->
  accepted_from os 1 before = true ->
  blank_or_comment line = false ->
  expand_path os (trim line) = None ->
  from_lines os (before ++ line :: after) = Undefined.
Proof.
  intros Hlen Hacc Hvalue Hfails.
  destruct before as [| l1 [| l2 ?]];
    cbn [List.length] in Hlen; try lia;
    cbn [accepted_from] in Hacc;
    repeat (apply andb_prop in Hacc as [? Hacc]);
    cbn [from_lines app];
    use_accepted; rewrite ?Hvalue, ?Hfails; reflexivity.
Qed.

End ConfigLinesAccepted.

(** ** RuntimeConfig: text after the fourth line *)

Section ConfigTail.

Import RuntimeConfig.

Lemma split_line_append (s tail : string) :
  split_line (s ++ String nl tail)
  = (fst (split_line s), snd (split_line s) ++ String nl tail)
  \/ (snd (split_line s) = EmptyString
      /\ split_line (s ++ String nl tail) = (fst (split_line s), tail)).
Proof.
  induction s as [| c s IH]; cbn [split_line append].
  - right. rewrite Ascii.eqb_refl. split; reflexivity.
  - destruct (Ascii.eqb c nl).
    + left. reflexivity.
    + destruct (split_line s) as [l r].
      destruct IH as [-> | [Hr ->]]; cbn [fst snd] in *.
      * left. reflexivity.
      * right. split; [assumption | reflexivity].
Qed.

(** Once a stream holds [n] lines, what is appended after a newline is
    not among its first [n] lines. *)
Lemma read_lines_append (n : nat) :
  forall content tail,
    List.length (read_lines n content) = n ->
    read_lines n (content ++ String nl tail) = read_lines n content.
Proof.
  induction n as [| n IH]; intros content tail Hlen; [reflexivity |].
  cbn [read_lines] in *.
  destruct content as [| c s]; [discriminate |].
  change (getline (String c s ++ String nl tail))
    with (Some (split_line (String c s ++ String nl tail))).
  cbn [getline] in *.
  destruct (split_line_append (String c s) tail) as [-> | [Hr ->]];
    destruct (split_line (String c s)) as [l r]; cbn [fst snd List.length] in *.
  - f_equal. apply IH. congruence.
  - subst r. f_equal.
    destruct n as [| n]; [reflexivity |]. discriminate.
Qed.

Lemma from_lines_length (os : System) (lines : list string) (c : RuntimeConfig) :
  from_lines os lines = Defined (Returns c) -> (4 <= List.length lines)%nat.
Proof.
  destruct lines as [| l1 [| l2 [| l3 [| l4 ?]]]]; cbn [from_lines List.length];
    intros H;
    repeat match type of H with
           | (if ?b then _ else _) = _ => destruct b
           | match extract_int ?l with _ => _ end = _ => destruct (extract_int l)
           | match expand_path ?o ?l with _ => _ end = _ => destruct (expand_path o l)
           end; try discriminate; lia.
Qed.

Lemma read_lines_length (n : nat) :
  forall content, (List.length (read_lines n content) <= n)%nat.
Proof.
  induction n as [| n IH]; intros content; cbn [read_lines List.length]; [lia |].
  destruct (getline content) as [[l r] |]; cbn [List.length]; [| lia].
  specialize (IH r). lia.
Qed.

(** C10.  The configuration that [from_file] returns is decided by the
    first four lines of the source.  When those four lines are accepted
    (each holds a value, [wordexp] succeeds on the two path lines, an
    [int] can be extracted from the two port lines) [from_file] returns a
    configuration; and two sources with the same first four lines behave
    alike, whatever follows the fourth line. *)
Theorem from_file_first_four_lines (os : System) (path content : string) :
  ifstream_open os path = Some content ->
  (List.length (read_lines 4 content) = 4%nat ->
   accepted_from os 1 (read_lines 4 content) = true ->
   exists c, from_file os path = Defined (Returns c))
  /\ (forall path' content',
         ifstream_open os path' = Some content' ->
         read_lines 4 content' = read_lines 4 content ->
         from_file os path' = from_file os path).
Proof.
  intros Hopen. split.
  - intros Hlen Hacc. rewrite (from_file_lines os path content Hopen).
    now apply from_lines_accepted.
  - intros path' content' Hopen' Hsame.
    rewrite (from_file_lines os path content Hopen).
    rewrite (from_file_lines os path' content' Hopen').
    now rewrite Hsame.
Qed.

Lemma from_file_first_four_lines_witness :
  (exists c, from_file Sample.system "config.txt" = Defined (Returns c))
  /\ from_file Sample.system "config_with_tail.txt"
     = from_file Sample.system "config.txt".
Proof.
  destruct (from_file_first_four_lines Sample.system "config.txt"
              Sample.config_txt eq_refl) as [Hok Hsame].
  split.
  - apply Hok; reflexivity.
  - apply (Hsame "config_with_tail.txt" Sample.config_with_tail); reflexivity.
Defined.

(** In particular, a source that parses still parses, to the same
    configuration, when a newline and any text are appended to it. *)
Corollary from_file_ignores_tail (os : System) (path path' content tail : string)
  (c : RuntimeConfig) :
  ifstream_open os path = Some content ->
  ifstream_open os path' = Some (content ++ String nl tail) ->
  from_file os path = Defined (Returns c) ->
  from_file os path' = Defined (Returns c).
Proof.
  intros Hopen Hopen' Hok.
  rewrite (from_file_lines os path content Hopen) in Hok.
  rewrite (from_file_lines os path' _ Hopen').
  rewrite read_lines_append; [assumption |].
  pose proof (from_lines_length os _ c Hok).
  pose proof (read_lines_length 4 content). lia.
Qed.

Example config_with_tail_parses :
  from_file Sample.system "config_with_tail.txt"
  = from_file Sample.system "config.txt"
  /\ from_file Sample.system "config.txt"
     = Defined (Returns {| llama_bin_path := "/usr/local/bin";
                           model_path := "/models/m.gguf";
                           llama_server_port := 8080;
                           app_server_port := 8081 |}).
Proof. split; reflexivity. Qed.

End ConfigTail.

(** ** RuntimeConfig: diagnostics of a source that lacks a line *)

Section ConfigDiagnostics.

Import RuntimeConfig.

(** C3, as the code has it.  Let the lines [before] be accepted (each
    holds a value, [wordexp] succeeds on those at the path positions 1
    and 2, an [int] can be extracted from the one at the port position 3)
    and fewer than four, and let [n] be the position after them.  When
    the source ends there, [from_file] throws the diagnostic of the absent
    position [n], which is worded after the missing field; when line [n]
    is present but blank or a comment, it throws the diagnostic that
    requires a value at line [n], and that one names the line. *)
Theorem from_file_missing_line (os : System) (path content : string)
  (before : list string) :
  ifstream_open os path = Some content ->
  (List.length before < 4)%nat ->
  accepted_from os 1 before = true ->
  (read_lines 4 content = before ->
   from_file os path
   = Defined (Throws (runtime_error (missing_diagnostic (S (List.length before))))))
  /\ (forall line after,
         read_lines 4 content = (before ++ line :: after)%list ->
         blank_or_comment line = true ->
         from_file os path
         = Defined (Throws (runtime_error
                              (required_diagnostic (S (List.length before)))))
         /\ names_line (S (List.length before))
              (required_diagnostic (S (List.length before))) = true).
Proof.
  intros Hopen Hlen Hacc.
  rewrite (from_file_lines os path content Hopen). split.
  - intros ->. now apply from_lines_absent.
  - intros line after -> Hblank. split.
    + now apply from_lines_blank.
    + destruct before as [| l1 [| l2 [| l3 [| l4 ?]]]];
        cbn [List.length] in *; try lia; reflexivity.
Qed.

Lemma from_file_missing_line_witness :
  from_file Sample.system "truncated.txt"
  = Defined (Throws (runtime_error "Missing model path in config"))
  /\ from_file Sample.system "blank_second.txt"
     = Defined (Throws (runtime_error "Line 2: model path is required"))
  /\ names_line 2 "Line 2: model path is required" = true.
Proof.
  split.
  - apply (from_file_missing_line Sample.system "truncated.txt"
             Sample.truncated_txt ["/usr/local/bin"]);
      [reflexivity | cbn; lia | reflexivity | reflexivity].
  - apply (from_file_missing_line Sample.system "blank_second.txt"
             Sample.blank_second_txt ["/usr/local/bin"]
             eq_refl ltac:(cbn; lia) eq_refl) with (line := "   ") (after := ["8080"; "8081"]);
      reflexivity.
Defined.

(** A source that ends after its first line lacks line 2; [wordexp]
    succeeds on the first line; the diagnostic is worded after the field
    and does not mention the number 2. *)
Lemma missing_line_not_named :
  read_lines 4 Sample.truncated_txt = ["/usr/local/bin"]
  /\ expand_path Sample.system "/usr/local/bin" = Some "/usr/local/bin"
  /\ exists what,
       from_file Sample.system "truncated.txt"
       = Defined (Throws (runtime_error what))
       /\ names_line 2 what = false.
Proof.
  split; [reflexivity |]. split; [reflexivity |].
  exists "Missing model path in config". split; reflexivity.
Qed.

(** None of the four diagnostics of an absent line mentions its number. *)
Lemma missing_diagnostic_unnumbered (n : nat) :
  (1 <= n <= 4)%nat -> names_line n (missing_diagnostic n) = false.
Proof.
  intros Hn.
  assert (Hcases : (n = 1 \/ n = 2 \/ n = 3 \/ n = 4)%nat) by lia.
  destruct Hcases as [-> | [-> | [-> | ->]]]; reflexivity.
Qed.

(** A path line on which [wordexp] fails: [expand_path] goes on to read a
    [wordexp_t] that has no value, and nothing is defined about the call
    of [from_file], whatever the lines after it. *)
Lemma from_file_wordexp_fails (os : System) (path content : string)
  (before : list string) (line : string) (after : list string) :
  ifstream_open os path = Some content ->
  (List.length before < 2)%nat ->
  accepted_from os 1 before = true ->
  read_lines 4 content = (before ++ line :: after)%list ->
  blank_or_comment line = false ->
  expand_path os (trim line) = None ->
  from_file os path = Undefined.
Proof.
  intros Hopen Hlen Hacc Hread Hvalue Hfails.
  rewrite (from_file_lines os path content Hopen), Hread.
  now apply from_lines_wordexp_fails.
Qed.

Example pipe_is_no_path :
  read_lines 4 MoreSamples.pipe_txt = ["/opt/a|b"]
  /\ expand_path MoreSamples.system "/opt/a|b" = None
  /\ from_file MoreSamples.system "pipe.txt" = Undefined.
Proof. repeat split; reflexivity. Qed.

(** A port line from which no integer can be extracted is reported with
    the number of its line. *)
Lemma from_file_invalid_port (os : System) (path content : string)
  (before : list string) (line : string) (after : list string) :
  ifstream_open os path = Some content ->
  (2 <= List.length before < 4)%nat ->
  accepted_from os 1 before = true ->
  read_lines 4 content = (before ++ line :: after)%list ->
  blank_or_comment line = false ->
  extract_int (trim line) = None ->
  from_file os path
  = Defined (Throws (runtime_error
      (if (List.length before =? 2)%nat then "Line 3: Invalid port number"
       else "Line 4: Invalid port number"))).
Proof.
  intros Hopen Hlen Hacc Hread Hvalue Hint.
  rewrite (from_file_lines os path content Hopen), Hread.
  destruct before as [| l1 [| l2 [| l3 [| l4 ?]]]];
    cbn [List.length] in Hlen; try lia;
    cbn [accepted_from] in Hacc;
    repeat (apply andb_prop in Hacc as [? Hacc]);
    cbn [from_lines List.length app Nat.eqb];
    use_accepted; rewrite Hvalue, Hint; reflexivity.
Qed.

Example letters_are_no_port :
  from_file Sample.system "letters.txt"
  = Defined (Throws (runtime_error "Line 3: Invalid port number")).
Proof. reflexivity. Qed.

(** C4, at the input where the code departs from it.  The third line
    [8080abc] is not an integer, yet [from_file] succeeds: the extraction
    stops at the first character that is no digit, the stream has not
    failed, and what follows the digits is never looked at. *)
Theorem from_file_accepts_trailing_text :
  is_integer "8080abc" = false
  /\ read_lines 4 Sample.trailing_txt
     = ["/usr/local/bin"; "/models/m.gguf"; "8080abc"; "8081"]
  /\ from_file Sample.system "trailing.txt"
     = Defined (Returns {| llama_bin_path := "/usr/local/bin";
                           model_path := "/models/m.gguf";
                           llama_server_port := 8080;
                           app_server_port := 8081 |}).
Proof. repeat split; reflexivity. Qed.

End ConfigDiagnostics.

(** ** RuntimeConfig: validation *)

Section ConfigValidation.

Import RuntimeConfig.





Example sample_configuration_validates :
  (exists c, from_file Sample.system "config.txt" = Defined (Returns c)
             /\ validate Sample.system c = Returns tt)
  /\ (exists c, from_file Sample.system "trailing.txt" = Defined (Returns c)
                /\ validate Sample.system c = Returns tt)
  /\ from_file Sample.system "letters.txt"
     = Defined (Throws (runtime_error "Line 3: Invalid port number")).
Proof.
  split; [| split]; [eexists; split; reflexivity .. | reflexivity].
Qed.

End ConfigValidation.

(** ** LlamaClient: requests and errors *)

Section ClientOperations.

Import LlamaClient.

Context {number_float : Type}.

Context {codec : Codec number_float} {net : Transport}.

(** C8.  For every prompt, token count and temperature, [complete] posts
    to [/completion], as [application/json] and through the client it
    configured for its host, port and timeouts, the serialisation of the
    object with exactly the four members [n_predict], [prompt], [stop]
    and [temperature], bound to the token count, the prompt, the fixed
    stop list and the temperature: its result is what it makes of the
    reply to that request.  When that object cannot be serialised,
    [complete] throws the [type_error] and posts nothing. *)
Theorem complete_posts_request (self : LlamaClient) (prompt : string)
  (max_tokens : Z) (temperature : number_float) :
  let request : basic_json number_float :=
    JObject [ ("n_predict", JInt max_tokens);
              ("prompt", JString prompt);
              ("stop", JArray [JString "User:";
                               JString (String nl (String nl EmptyString))]);
              ("temperature", JFloat temperature) ] in
  complete_request prompt max_tokens temperature = request
  /\ (forall request_body,
         dump_text request = Done request_body ->
         complete self prompt max_tokens temperature
         = (res <- Post (configured self) "/completion" request_body
                     "application/json" ;;
            match res with
            | None =>
                Throws (runtime_error "HTTP request failed: connection error")
            | Some res =>
                if negb (status res =? 200)
                then Throws (runtime_error
                       ("HTTP request failed with status: "
                        ++ to_string (status res)))
                else parse (body res)
            end))
  /\ (forall what,
         dump_text request = Failed what ->
         complete self prompt max_tokens temperature
         = Throws (StdException TypeError what)).
Proof.
  cbv zeta. split; [reflexivity |].
  unfold complete.
  change (complete_request prompt max_tokens temperature)
    with (JObject [ ("n_predict", JInt max_tokens);
                    ("prompt", JString prompt);
                    ("stop", JArray [JString "User:";
                                     JString (String nl (String nl EmptyString))]);
                    ("temperature", JFloat temperature) ]
          : basic_json number_float).
  unfold dump. split.
  - intros request_body ->. reflexivity.
  - intros what ->. reflexivity.
Qed.

Lemma checked_reply_policy (status_message : string)
  (reply : outcome (option Response)) :
  error_policy status_message reply
    (res <- reply ;;
     match res with
     | None => Throws (runtime_error "HTTP request failed: connection error")
     | Some res =>
         if negb (status res =? 200)
         then Throws (runtime_error (status_message ++ to_string (status res)))
         else parse (body res)
     end).
Proof.
  unfold error_policy. repeat split.
  - intros ->. reflexivity.
  - intros res -> Hst. cbn [bind].
    apply Z.eqb_neq in Hst. rewrite Hst. reflexivity.
  - intros res what -> Hst Hparse. cbn [bind].
    rewrite Hst. cbn [Z.eqb negb Pos.eqb]. unfold parse. rewrite Hparse. reflexivity.
Qed.

(** The three failures are different exceptions, and the backend error
    determines the status it was raised for. *)
Lemma errors_distinct (status_message : string) (code code' : Z) (what : string) :
  (status_message = "HTTP request failed with status: "
   \/ status_message = "Failed to get models, status: ") ->
  runtime_error "HTTP request failed: connection error"
  <> runtime_error (status_message ++ to_string code)
  /\ runtime_error "HTTP request failed: connection error"
     <> StdException ParseError what
  /\ runtime_error (status_message ++ to_string code)
     <> StdException ParseError what
  /\ (runtime_error (status_message ++ to_string code)
      = runtime_error (status_message ++ to_string code') -> code = code').
Proof.
  intros Hmsg. unfold runtime_error. repeat split; try discriminate.
  - destruct Hmsg as [-> | ->]; cbn [append]; discriminate.
  - intros H. apply to_string_inj.
    destruct Hmsg as [-> | ->]; cbn [append] in H; congruence.
Qed.

(** C2.  [complete], [chat] and [get_models] follow the error policy: no
    response, a status other than 200 and a body that is not JSON make the
    call fail in three ways that differ from one another, the second of
    them telling the status. *)
Theorem client_error_policy (self : LlamaClient) :
  (forall prompt max_tokens temperature request_body,
      dump (complete_request prompt max_tokens temperature)
      = Returns request_body ->
      error_policy "HTTP request failed with status: "
        (Post (configured self) "/completion" request_body "application/json")
        (complete self prompt max_tokens temperature))
  /\ (forall messages max_tokens temperature request_body,
         dump (chat_request messages max_tokens temperature)
         = Returns request_body ->
         error_policy "HTTP request failed with status: "
           (Post (configured self) "/v1/chat/completions" request_body
              "application/json")
           (chat self messages max_tokens temperature))
  /\ error_policy "Failed to get models, status: "
       (Get (configured self) "/v1/models") (get_models self)
  /\ (forall status_message code code' what,
         status_message = "HTTP request failed with status: "
         \/ status_message = "Failed to get models, status: " ->
         runtime_error "HTTP request failed: connection error"
         <> runtime_error (status_message ++ to_string code)
         /\ runtime_error "HTTP request failed: connection error"
            <> StdException ParseError what
         /\ runtime_error (status_message ++ to_string code)
            <> StdException ParseError what
         /\ (runtime_error (status_message ++ to_string code)
             = runtime_error (status_message ++ to_string code') ->
             code = code')).
Proof.
  split; [| split; [| split]].
  - intros prompt max_tokens temperature request_body Hdump.
    unfold complete. rewrite Hdump. cbn [bind]. apply checked_reply_policy.
  - intros messages max_tokens temperature request_body Hdump.
    unfold chat. rewrite Hdump. cbn [bind]. apply checked_reply_policy.
  - unfold get_models. apply checked_reply_policy.
  - intros. now apply errors_distinct.
Qed.

(** C6.  [is_alive] always returns, and it returns [true] exactly when
    the GET of [/health], made with read and write timeouts of 5 seconds,
    is answered with status 200; no response, another status and an
    exception all give [false]. *)
Theorem is_alive_never_raises (self : LlamaClient) :
  let probe := {| client_host := host_ self; client_port := port_ self;
                  read_timeout := Some 5; write_timeout := Some 5 |} in
  exists alive,
    is_alive self = Returns alive
    /\ (alive = true
        <-> exists res, Get probe "/health" = Returns (Some res)
                        /\ status res = 200).
Proof.
  intros probe. unfold is_alive.
  change (set_write_timeout _ _) with probe.
  destruct (Get probe "/health") as [[res |] | e]; cbn [bind try_catch_all].
  - exists (status res =? 200). split; [reflexivity |]. split.
    + intros H. exists res. split; [reflexivity | now apply Z.eqb_eq].
    + intros (res' & Heq & Hst). injection Heq as <-. now apply Z.eqb_eq.
  - exists false. split; [reflexivity |]. split; [discriminate |].
    intros (res & Heq & _). discriminate.
  - exists false. split; [reflexivity |]. split; [discriminate |].
    intros (res & Heq & _). discriminate.
Qed.

End ClientOperations.

Section ClientSamples.

Import LlamaClient.

(** A backend that answers nothing but the POST to [/completion] of the
    request for [Hello], 16 tokens and temperature 700 does answer
    [complete]; and it refuses the same text sent to another route. *)
Lemma complete_posts_request_witness :
  @complete _ Sample.codec
    (MoreSamples.strict_backend "/completion" MoreSamples.hello_request_body)
    Sample.on_8080 "Hello" 16 (700 : Sample.number)
  = Returns JNull
  /\ @complete _ Sample.codec
       (MoreSamples.strict_backend "/v1/completions" MoreSamples.hello_request_body)
       Sample.on_8080 "Hello" 16 (700 : Sample.number)
     = Throws (runtime_error "HTTP request failed with status: 400").
Proof.
  split.
  - destruct (@complete_posts_request Sample.number Sample.codec
                (MoreSamples.strict_backend "/completion"
                   MoreSamples.hello_request_body)
                Sample.on_8080 "Hello" 16 700) as [_ [Hposts _]].
    rewrite (Hposts MoreSamples.hello_request_body eq_refl). reflexivity.
  - destruct (@complete_posts_request Sample.number Sample.codec
                (MoreSamples.strict_backend "/v1/completions"
                   MoreSamples.hello_request_body)
                Sample.on_8080 "Hello" 16 700) as [_ [Hposts _]].
    rewrite (Hposts MoreSamples.hello_request_body eq_refl). reflexivity.
Defined.

(** Nothing listens on port 9999; on port 8080 the models are still
    loading and a completion is answered with a page that is not JSON. *)
Lemma client_error_policy_witness :
  @complete _ Sample.codec Sample.backend Sample.on_9999 "Hello" 16 (700 : Sample.number)
  = Throws (runtime_error "HTTP request failed: connection error")
  /\ @get_models _ Sample.codec Sample.backend Sample.on_8080
     = Throws (runtime_error "Failed to get models, status: 503")
  /\ @complete _ Sample.codec Sample.backend Sample.on_8080 "Hello" 16 (700 : Sample.number)
     = Throws (StdException ParseError "syntax error while parsing value").
Proof.
  pose proof (@client_error_policy _ Sample.codec Sample.backend Sample.on_9999)
    as [Hcomplete _].
  pose proof (@client_error_policy _ Sample.codec Sample.backend Sample.on_8080)
    as [Hcomplete' [_ [Hmodels _]]].
  split; [| split].
  - apply (Hcomplete "Hello" 16 (700 : Sample.number)
             (Sample.render (complete_request "Hello" 16 (700 : Sample.number)))
             eq_refl).
    reflexivity.
  - apply Hmodels with (res := {| status := 503; body := "loading" |}).
    + reflexivity.
    + discriminate.
  - apply (Hcomplete' "Hello" 16 (700 : Sample.number)
             (Sample.render (complete_request "Hello" 16 (700 : Sample.number)))
             eq_refl) with (res := {| status := 200; body := "<html>" |});
      reflexivity.
Defined.

Example is_alive_samples :
  @is_alive Sample.backend Sample.on_8080 = Returns true
  /\ @is_alive Sample.backend Sample.on_9999 = Returns false
  /\ @is_alive Sample.offline Sample.on_8080 = Returns false.
Proof. repeat split; reflexivity. Qed.

End ClientSamples.

(** ** AppServerBase: the business route *)

Section BusinessRoute.

Import AppServerBase.

Context {number_float : Type} {codec : Codec number_float}.
Variable Derived : Type.
Variable process_request :
  basic_json number_float -> Derived -> outcome (basic_json number_float) * Derived.

Local Abbreviation api := (api_route Derived process_request).

(** The error object of the [catch] block, for a message [what]. *)
Lemma error_object (what : string) :
  init_list [ init_list [JString "error"; JString what];
              init_list [JString "status"; JString "failed"] ]
  = (JObject [("error", JString what); ("status", JString "failed")]
     : basic_json number_float).
Proof. reflexivity. Qed.

(** What the [catch] block leaves behind for an exception with message
    [what], whatever the [try] block did to the server object. *)
Lemma api_route_caught (req : Request) (res : Response)
  (srv srv' : Server Derived) (cls : exception_class) (what : string) :
  api_try Derived process_request req res srv
  = (Throws (StdException cls what), res, srv') ->
  snd (api req res srv) = srv'
  /\ res_status (response (fst (api req res srv))) = 500
  /\ (forall s,
         dump_text (JObject [("error", JString what); ("status", JString "failed")])
         = Done s ->
         fst (api req res srv)
         = {| response := {| res_status := 500; res_body := s;
                             res_content_type := Some "application/json" |};
              escaped := None |}).
Proof.
  intros Htry. unfold api_route. rewrite Htry, error_object. unfold dump.
  destruct (dump_text _) as [s | w]; cbn [fst snd response res_status set_content set_status].
  - repeat split. intros s' Hs. injection Hs as <-. reflexivity.
  - repeat split. discriminate.
Qed.

(** When the body of a POST /api request does not parse,
    [process_request] is not called and the server object is left as it
    was; the response gets status 500 (the one [catch] block serves decode
    failures and handler failures alike) and, when the error object
    serialises, the payload with the parser's message. *)
Lemma api_invalid_body (req : Request) (res : Response)
  (srv : Server Derived) (what : string) :
  parse_text (req_body req) = Failed what ->
  snd (api req res srv) = srv
  /\ res_status (response (fst (api req res srv))) = 500
  /\ (forall s,
         dump_text (JObject [("error", JString what); ("status", JString "failed")])
         = Done s ->
         fst (api req res srv)
         = {| response := {| res_status := 500; res_body := s;
                             res_content_type := Some "application/json" |};
              escaped := None |}).
Proof.
  intros Hparse. apply api_route_caught with (cls := ParseError).
  unfold api_try, parse. rewrite Hparse. reflexivity.
Qed.

(** A request whose body parses reaches [process_request], once. *)
Lemma api_route_invokes (req : Request) (res : Response)
  (srv : Server Derived) (request : basic_json number_float) :
  parse_text (req_body req) = Done request ->
  invocations (snd (api req res srv)) = request :: invocations srv
  /\ derived (snd (api req res srv))
     = snd (process_request request (derived srv)).
Proof.
  intros Hparse. unfold api_route, api_try, parse, call_process_request.
  rewrite Hparse.
  destruct (process_request request (derived srv)) as [[response_ | e] d];
    cbn [snd].
  - destruct (dump response_) as [s | [cls what |]]; cbn [snd].
    + split; reflexivity.
    + destruct (dump _); split; reflexivity.
    + split; reflexivity.
  - destruct e as [cls what |].
    + destruct (dump _); split; reflexivity.
    + split; reflexivity.
Qed.

(** C7, as the code has it.  When [process_request] throws an exception
    derived from [std::exception], the response gets status 500 and, when
    the error object serialises, the payload with the exception's message,
    and the handler returns to the listener; the server object is the one
    [process_request] left, and the next request whose body parses is
    handed to [process_request] again. *)
Theorem api_handler_raises (req : Request) (res : Response)
  (srv : Server Derived) (request : basic_json number_float)
  (cls : exception_class) (what : string) (d : Derived) :
  parse_text (req_body req) = Done request ->
  process_request request (derived srv) = (Throws (StdException cls what), d) ->
  snd (api req res srv)
  = {| derived := d; invocations := request :: invocations srv |}
  /\ res_status (response (fst (api req res srv))) = 500
  /\ (forall s,
         dump_text (JObject [("error", JString what); ("status", JString "failed")])
         = Done s ->
         fst (api req res srv)
         = {| response := {| res_status := 500; res_body := s;
                             res_content_type := Some "application/json" |};
              escaped := None |})
  /\ (forall req' res' request',
         parse_text (req_body req') = Done request' ->
         invocations (snd (api req' res' (snd (api req res srv))))
         = request' :: request :: invocations srv).
Proof.
  intros Hparse Hthrow.
  assert (Htry : api_try Derived process_request req res srv
                 = (Throws (StdException cls what), res,
                    {| derived := d; invocations := request :: invocations srv |})).
  { unfold api_try, parse, call_process_request.
    rewrite Hparse, Hthrow. reflexivity. }
  destruct (api_route_caught req res srv _ cls what Htry) as (Hsrv & Hstatus & Hbody).
  repeat split; try assumption.
  intros req' res' request' Hparse'.
  destruct (api_route_invokes req' res' (snd (api req res srv)) request' Hparse')
    as [-> _].
  rewrite Hsrv. reflexivity.
Qed.

(** A thrown value that is no [std::exception] is not caught: the
    response is left as the handler found it and the value reaches the
    listener. *)
Lemma api_handler_throws_foreign (req : Request) (res : Response)
  (srv : Server Derived) (request : basic_json number_float) (d : Derived) :
  parse_text (req_body req) = Done request ->
  process_request request (derived srv) = (Throws Foreign, d) ->
  fst (api req res srv) = {| response := res; escaped := Some Foreign |}.
Proof.
  intros Hparse Hthrow.
  unfold api_route, api_try, parse, call_process_request.
  rewrite Hparse, Hthrow. reflexivity.
Qed.

End BusinessRoute.

Section RouteSamples.

Import AppServerBase.

Local Abbreviation sample_api :=
  (@api_route Sample.number Sample.codec nat Sample.process_request).

(** C1, at an input where the code departs from it.  The body [{] is no
    JSON document.  As specified, [process_request] is not called and
    an error payload with the parser's message is sent; but the status is
    500, the one the [catch] block sets for every exception, and not
    400. *)
Theorem invalid_body_answered_500 :
  parse (codec := Sample.codec) "{"
  = Throws (StdException ParseError "syntax error while parsing value")
  /\ snd (sample_api {| req_body := "{" |} Sample.fresh_response Sample.fresh_server)
     = Sample.fresh_server
  /\ fst (sample_api {| req_body := "{" |} Sample.fresh_response Sample.fresh_server)
     = {| response :=
            {| res_status := 500;
               res_body :=
                 Sample.render
                   (JObject [("error", JString "syntax error while parsing value");
                             ("status", JString "failed")]);
               res_content_type := Some "application/json" |};
          escaped := None |}
  /\ res_status (response (fst (sample_api {| req_body := "{" |}
                                  Sample.fresh_response Sample.fresh_server)))
     <> 400.
Proof.
  destruct (@api_invalid_body Sample.number Sample.codec nat Sample.process_request
              {| req_body := "{" |} Sample.fresh_response Sample.fresh_server
              "syntax error while parsing value" eq_refl)
    as (Hsrv & Hstatus & Hbody).
  split; [reflexivity |]. split; [exact Hsrv |].
  split; [apply Hbody; reflexivity |].
  rewrite Hstatus. discriminate.
Qed.

Lemma api_handler_raises_witness :
  fst (sample_api {| req_body := "true" |} Sample.fresh_response Sample.fresh_server)
  = {| response :=
         {| res_status := 500;
            res_body :=
              Sample.render
                (JObject [("error", JString "no booleans");
                          ("status", JString "failed")]);
            res_content_type := Some "application/json" |};
       escaped := None |}
  /\ invocations
       (snd (sample_api {| req_body := "42" |} Sample.fresh_response
               (snd (sample_api {| req_body := "true" |} Sample.fresh_response
                       Sample.fresh_server))))
     = [JInt 42; JBool true].
Proof.
  destruct (@api_handler_raises Sample.number Sample.codec nat Sample.process_request
              {| req_body := "true" |} Sample.fresh_response Sample.fresh_server
              (JBool true) RuntimeError "no booleans" O eq_refl eq_refl)
    as (_ & _ & Hbody & Hnext).
  split.
  - apply Hbody. reflexivity.
  - apply (Hnext {| req_body := "42" |} Sample.fresh_response (JInt 42)).
    reflexivity.
Defined.

(** A handler that throws a value which is no [std::exception]: the route
    sets neither status 500 nor a payload, and the value leaves the
    route. *)
Lemma foreign_throw_not_translated :
  Sample.process_request JNull O = (Throws Foreign, O)
  /\ res_status (response (fst (sample_api {| req_body := "null" |}
                                  Sample.fresh_response Sample.fresh_server)))
     <> 500
  /\ res_body (response (fst (sample_api {| req_body := "null" |}
                                Sample.fresh_response Sample.fresh_server)))
     = EmptyString
  /\ escaped (fst (sample_api {| req_body := "null" |}
                     Sample.fresh_response Sample.fresh_server))
     = Some Foreign.
Proof. repeat split. discriminate. Qed.

(** A request that the handler answers: the payload is the handler's
    output and the status is left for the listener to set. *)
Example api_echo :
  fst (sample_api {| req_body := "42" |} Sample.fresh_response Sample.fresh_server)
  = {| response := {| res_status := -1; res_body := "42";
                      res_content_type := Some "application/json" |};
       escaped := None |}.
Proof. reflexivity. Qed.

End RouteSamples.

(* ================================================================== *)
(** * Part III: further properties of the three headers and of the
      generator's text functions *)
(* ================================================================== *)

(** ** RuntimeConfig: [trim] *)

Section TrimFacts.

Import RuntimeConfig.

Variable set : string.

Lemma find_last_none_first_none (s : string) :
  find_last_not_of set s = None -> find_first_not_of set s = None.
Proof.
  induction s as [| c s IH]; cbn [find_last_not_of find_first_not_of]; [reflexivity |].
  destruct (find_last_not_of set s); [discriminate |].
  destruct (mem_char c set); [| discriminate].
  intros _. rewrite IH by reflexivity. reflexivity.
Qed.

Lemma find_first_none_last_none (s : string) :
  find_first_not_of set s = None -> find_last_not_of set s = None.
Proof.
  induction s as [| c s IH]; cbn [find_last_not_of find_first_not_of]; [reflexivity |].
  destruct (mem_char c set); [| discriminate].
  destruct (find_first_not_of set s); [discriminate |].
  intros _. rewrite IH by reflexivity. reflexivity.
Qed.

(** The first character outside [set] splits the string. *)
Lemma find_first_split (s : string) (i : nat) :
  find_first_not_of set s = Some i ->
  exists lead c rest,
    s = lead ++ String c rest
    /\ String.length lead = i
    /\ find_first_not_of set lead = None
    /\ mem_char c set = false.
Proof.
  revert i. induction s as [| a s IH]; cbn [find_first_not_of]; intros i H;
    [discriminate |].
  destruct (mem_char a set) eqn:Ha.
  - destruct (find_first_not_of set s) as [k |]; [| discriminate].
    injection H as <-.
    destruct (IH k eq_refl) as (lead & c & rest & -> & Hlen & Hlead & Hc).
    exists (String a lead), c, rest. cbn [append String.length find_first_not_of].
    rewrite Ha, Hlead, Hlen. repeat split; assumption.
  - injection H as <-. exists EmptyString, a, s. repeat split; assumption.
Qed.

(** The last character outside [set] splits the string. *)
Lemma find_last_split (s : string) (j : nat) :
  find_last_not_of set s = Some j ->
  exists front c trail,
    s = front ++ String c trail
    /\ String.length front = j
    /\ mem_char c set = false
    /\ find_first_not_of set trail = None.
Proof.
  revert j. induction s as [| a s IH]; cbn [find_last_not_of]; intros j H;
    [discriminate |].
  destruct (find_last_not_of set s) as [k |] eqn:Hs.
  - injection H as <-.
    destruct (IH k eq_refl) as (front & c & trail & -> & Hlen & Hc & Htrail).
    exists (String a front), c, trail. cbn [append String.length].
    rewrite Hlen. repeat split; assumption.
  - destruct (mem_char a set) eqn:Ha; [discriminate |]. injection H as <-.
    exists EmptyString, a, s. repeat split; try assumption.
    now apply find_last_none_first_none.
Qed.

Lemma find_last_skip_lead (lead t : string) :
  find_first_not_of set lead = None ->
  find_last_not_of set (lead ++ t)
  = option_map (fun j => (String.length lead + j)%nat) (find_last_not_of set t).
Proof.
  induction lead as [| a lead IH]; cbn [append String.length find_first_not_of
                                          find_last_not_of]; intros H.
  - destruct (find_last_not_of set t); reflexivity.
  - destruct (mem_char a set); [| discriminate].
    destruct (find_first_not_of set lead); [discriminate |].
    rewrite IH by reflexivity.
    destruct (find_last_not_of set t); reflexivity.
Qed.

Lemma find_last_of_front (front : string) (c : ascii) :
  mem_char c set = false ->
  find_last_not_of set (front ++ String c EmptyString)
  = Some (String.length front).
Proof.
  intros Hc. induction front as [| a front IH];
    cbn [append String.length find_last_not_of].
  - rewrite Hc. reflexivity.
  - rewrite IH. reflexivity.
Qed.

Lemma find_first_of_core (front : string) (c a : ascii) (rest : string) :
  mem_char a set = false ->
  String a rest = front ++ String c EmptyString ->
  find_first_not_of set (front ++ String c EmptyString) = Some O.
Proof.
  intros Ha <-. cbn [find_first_not_of]. rewrite Ha. reflexivity.
Qed.

Lemma take_length_append (s t : string) : take (String.length s) (s ++ t) = s.
Proof.
  induction s as [| c s IH]; cbn [take append String.length].
  - destruct t; reflexivity.
  - rewrite IH. reflexivity.
Qed.

Lemma take_all (s : string) : take (String.length s) s = s.
Proof.
  induction s as [| c s IH]; cbn [take String.length]; [reflexivity |].
  now rewrite IH.
Qed.

Lemma append_assoc (a b c : string) : (a ++ b) ++ c = a ++ b ++ c.
Proof.
  induction a as [| x a IH]; cbn [append]; [reflexivity | now rewrite IH].
Qed.

Lemma append_empty_r (s : string) : s ++ EmptyString = s.
Proof.
  induction s as [| c s IH]; cbn [append]; [reflexivity | now rewrite IH].
Qed.

Lemma length_append (a b : string) :
  String.length (a ++ b) = (String.length a + String.length b)%nat.
Proof.
  induction a as [| x a IH]; cbn [append String.length Nat.add];
    [reflexivity | now rewrite IH].
Qed.

End TrimFacts.

Section TrimProperties.

Import RuntimeConfig.

(** The shape of [trim str]: either every character of [str] is in the
    set and the result is empty, or [str] is [lead ++ core ++ trail] with
    [lead] and [trail] inside the set, [core] starting and ending outside
    it, and the result is [core]. *)
Lemma trim_shape (str : string) :
  (find_first_not_of trim_set str = None /\ trim str = EmptyString)
  \/ exists lead front c trail,
       str = lead ++ (front ++ String c EmptyString) ++ trail
       /\ trim str = front ++ String c EmptyString
       /\ find_first_not_of trim_set lead = None
       /\ find_first_not_of trim_set trail = None
       /\ mem_char c trim_set = false
       /\ find_first_not_of trim_set (front ++ String c EmptyString) = Some O.
Proof.
  unfold trim. fold trim_set.
  destruct (find_first_not_of trim_set str) as [i |] eqn:Hfirst.
  2: { left. split; reflexivity. }
  right.
  destruct (find_first_split trim_set str i Hfirst)
    as (lead & a & rest & -> & Hlen & Hlead & Ha).
  rewrite (find_last_skip_lead trim_set lead _ Hlead).
  destruct (find_last_not_of trim_set (String a rest)) as [j |] eqn:Hlast.
  2: { apply find_last_none_first_none in Hlast.
       cbn [find_first_not_of] in Hlast. rewrite Ha in Hlast. discriminate. }
  destruct (find_last_split trim_set _ j Hlast)
    as (front & c & trail & Heq & Hfront & Hc & Htrail).
  exists lead, front, c, trail. cbn [option_map].
  assert (Hcore : String a rest = (front ++ String c EmptyString) ++ trail).
  { rewrite Heq, append_assoc. reflexivity. }
  repeat split; try assumption.
  - rewrite Hcore. reflexivity.
  - unfold substr. subst i. rewrite drop_append.
    replace (String.length lead + j - String.length lead + 1)%nat
      with (String.length (front ++ String c EmptyString)).
    + rewrite Hcore. apply take_length_append.
    + rewrite length_append. cbn [String.length]. lia.
  - destruct front as [| b front]; cbn [append] in Heq |- *;
      injection Heq as <- _; cbn [find_first_not_of]; rewrite Ha; reflexivity.
Qed.

(** X1.  [trim] removes nothing but whitespace: the argument is the
    result with whitespace (space, tab, carriage return, newline) before
    and after it. *)
Theorem trim_decomposition (str : string) :
  exists lead trail,
    str = lead ++ trim str ++ trail
    /\ find_first_not_of trim_set lead = None
    /\ find_first_not_of trim_set trail = None.
Proof.
  destruct (trim_shape str) as [[Hall ->] | (lead & front & c & trail & Hstr & -> & Hlead & Htrail & _)].
  - exists str, EmptyString. cbn [append]. rewrite append_empty_r.
    split; [reflexivity | split; [assumption | reflexivity]].
  - exists lead, trail. repeat split; assumption.
Qed.

(** X2.  [trim] leaves no whitespace at either end: its result is empty,
    or its first and its last character are no whitespace. *)
Theorem trim_edges (str : string) :
  trim str = EmptyString
  \/ (find_first_not_of trim_set (trim str) = Some O
      /\ find_last_not_of trim_set (trim str)
         = Some (String.length (trim str) - 1)%nat).
Proof.
  destruct (trim_shape str) as [[_ ->] | (lead & front & c & trail & _ & -> & _ & _ & Hc & Hfirst)].
  - left. reflexivity.
  - right. split; [assumption |].
    rewrite (find_last_of_front trim_set front c Hc), length_append.
    cbn [String.length]. f_equal. lia.
Qed.

(** A string that starts and ends outside the set is its own trim. *)
Lemma trim_fixed (s : string) :
  find_first_not_of trim_set s = Some O ->
  find_last_not_of trim_set s = Some (String.length s - 1)%nat ->
  trim s = s.
Proof.
  intros Hfirst Hlast. unfold trim. fold trim_set. rewrite Hfirst, Hlast.
  unfold substr. cbn [drop].
  destruct s as [| c s]; [discriminate |]. cbn [String.length].
  replace (S (String.length s) - 1 - 0 + 1)%nat with (S (String.length s)) by lia.
  apply (take_all (String c s)).
Qed.

Lemma trim_twice (str : string) : trim (trim str) = trim str.
Proof.
  destruct (trim_shape str)
    as [[_ ->] | (lead & front & c & trail & _ & -> & _ & _ & Hc & Hfirst)];
    [reflexivity |].
  apply trim_fixed; [assumption |].
  rewrite (find_last_of_front trim_set front c Hc), length_append.
  cbn [String.length]. f_equal. lia.
Qed.

(** X3.  [trim] is idempotent: trimming what is trimmed changes
    nothing. *)
Theorem trim_idempotent (str : string) : trim (trim str) = trim str.
Proof.
  destruct (trim_shape str)
    as [[_ ->] | (lead & front & c & trail & _ & -> & _ & _ & Hc & Hfirst)];
    [reflexivity |].
  apply trim_fixed; [assumption |].
  rewrite (find_last_of_front trim_set front c Hc), length_append.
  cbn [String.length]. f_equal. lia.
Qed.

End TrimProperties.

(** ** RuntimeConfig: what [from_file] returns *)

Section ConfigFields.

Import RuntimeConfig.

Variable os : System.

Lemma extract_int_in_range (s : string) (v : Z) :
  extract_int s = Some v -> in_int_range v = true.
Proof.
  unfold extract_int. destruct (scan_int s) as [w |]; [| discriminate].
  destruct (in_int_range w) eqn:Hw; [| discriminate].
  intros H. injection H as <-. exact Hw.
Qed.

(** [from_lines] looks at its lines through [trim] only. *)
Lemma from_lines_trim (lines : list string) :
  from_lines os (map trim lines) = from_lines os lines.
Proof.
  destruct lines as [| l1 [| l2 [| l3 [| l4 rest]]]];
    cbn [map from_lines]; unfold blank_or_comment;
    rewrite ?trim_twice; reflexivity.
Qed.

(** X4.  [from_file] reads its four lines through [trim]: two sources
    whose first four lines agree once trimmed (different indentation,
    trailing blanks, Windows line ends) give the same result. *)
Theorem from_file_ignores_surrounding_whitespace
  (path path' content content' : string) :
  ifstream_open os path = Some content ->
  ifstream_open os path' = Some content' ->
  map trim (read_lines 4 content) = map trim (read_lines 4 content') ->
  from_file os path = from_file os path'.
Proof.
  intros Hopen Hopen' Hsame.
  rewrite (from_file_lines os path content Hopen).
  rewrite (from_file_lines os path' content' Hopen').
  rewrite <- (from_lines_trim (read_lines 4 content)), Hsame.
  apply from_lines_trim.
Qed.

(** X5.  The ports of a configuration that [from_file] returns fit an
    [int]. *)
Theorem from_file_ports_fit_int (path : string) (c : RuntimeConfig) :
  from_file os path = Defined (Returns c) ->
  INT_MIN <= llama_server_port c <= INT_MAX
  /\ INT_MIN <= app_server_port c <= INT_MAX.
Proof.
  unfold from_file.
  destruct (ifstream_open os path) as [content |]; [| discriminate].
  repeat match goal with
         | |- context [getline ?s] => destruct (getline s) as [[? ?] |]
         | |- context [if ?b then _ else _] => destruct b
         | |- context [match extract_int ?l with _ => _ end] =>
             destruct (extract_int l) eqn:?
         | |- context [match expand_path ?o ?l with _ => _ end] =>
             destruct (expand_path o l)
         end; try discriminate.
  intros H. injection H as <-. cbn [llama_server_port app_server_port].
  repeat match goal with
         | H : extract_int _ = Some _ |- _ =>
             apply extract_int_in_range in H; unfold in_int_range in H;
             apply andb_prop in H as [?%Z.leb_le ?%Z.leb_le]
         end.
  lia.
Qed.

End ConfigFields.

Section ConfigWellFormed.

Import RuntimeConfig.







Lemma from_file_ignores_surrounding_whitespace_witness :
  from_file MoreSamples.system "config.txt"
  = from_file MoreSamples.system "config_crlf.txt".
Proof.
  apply (from_file_ignores_surrounding_whitespace MoreSamples.system
           "config.txt" "config_crlf.txt" Sample.config_txt MoreSamples.config_crlf);
    reflexivity.
Defined.

Lemma from_file_ports_fit_int_witness :
  INT_MIN <= 8080 <= INT_MAX /\ INT_MIN <= 8081 <= INT_MAX.
Proof.
  apply (from_file_ports_fit_int MoreSamples.system "config_crlf.txt"
           {| llama_bin_path := "/usr/local/bin"; model_path := "/models/m.gguf";
              llama_server_port := 8080; app_server_port := 8081 |}).
  reflexivity.
Defined.

(** X7.  Let the two path lines hold a value on which [wordexp]
    succeeds.  A port line that holds a value from which no [int] can be
    extracted (no digit after an optional sign, or a number that no [int]
    holds) makes [from_file] throw the diagnostic of its line:
    [Line 3: Invalid port number] for the third line and, when the third
    is accepted, [Line 4: Invalid port number] for the fourth. *)
Theorem from_file_port_not_int (os : System)
  (path content l1 l2 l3 bin model : string) (after : list string) :
  ifstream_open os path = Some content ->
  read_lines 4 content = l1 :: l2 :: l3 :: after ->
  blank_or_comment l1 = false ->
  blank_or_comment l2 = false ->
  expand_path os (trim l1) = Some bin ->
  expand_path os (trim l2) = Some model ->
  blank_or_comment l3 = false ->
  (extract_int (trim l3) = None ->
   from_file os path
   = Defined (Throws (runtime_error "Line 3: Invalid port number")))
  /\ (forall l4 port_x,
         after = [l4] ->
         extract_int (trim l3) = Some port_x ->
         blank_or_comment l4 = false ->
         extract_int (trim l4) = None ->
         from_file os path
         = Defined (Throws (runtime_error "Line 4: Invalid port number"))).
Proof.
  intros Hopen Hread V1 V2 E1 E2 V3.
  rewrite (from_file_lines os path content Hopen), Hread.
  cbn [from_lines]. rewrite V1, V2, E1, E2, V3. split.
  - intros ->. reflexivity.
  - intros l4 port_x -> -> V4 ->. rewrite V4. reflexivity.
Qed.

Lemma from_file_port_not_int_witness :
  from_file MoreSamples.system "overflow.txt"
  = Defined (Throws (runtime_error "Line 3: Invalid port number")).
Proof.
  apply (from_file_port_not_int MoreSamples.system "overflow.txt"
           MoreSamples.overflow_txt "/usr/local/bin" "/models/m.gguf"
           "99999999999" "/usr/local/bin" "/models/m.gguf" ["8081"]);
    reflexivity.
Defined.

End ConfigWellFormed.

(** ** LlamaClient: how a URL is taken apart *)

Section UrlParsing.

Import LlamaClient.

Lemma find_https_scheme (rest : string) :
  find ("https://" ++ rest) "https://" = Some O.
Proof. unfold find. cbn. rewrite prefix_empty. reflexivity. Qed.

Lemma find_http_in_https (rest : string) :
  find ("https://" ++ rest) "http://" <> Some O.
Proof.
  unfold find.
  change (String.index 0 "http://" ("https://" ++ rest))
    with (match String.index 0 "http://" ("ttps://" ++ rest) with
          | Some n => Some (S n)
          | None => None
          end).
  destruct (String.index 0 "http://" ("ttps://" ++ rest)); discriminate.
Qed.

(** With a host free of colons, the text after the first colon is what
    [stoi] gets. *)
Lemma parse_url_split (host rest : string) :
  find_char host ":" = None ->
  parse_url ("http://" ++ host ++ ":" ++ rest)
  = (port <- stoi rest ;; Returns (host, port)).
Proof.
  intros Hhost. unfold parse_url.
  rewrite find_http_scheme.
  change (substr_from ("http://" ++ host ++ ":" ++ rest) 7)
    with (host ++ String ":" rest).
  rewrite (find_char_append ":" host _ Hhost).
  unfold substr, substr_from. cbn [drop].
  rewrite take_append, drop_past_separator. reflexivity.
Qed.

(** X8.  The scheme of the URL is dropped, not remembered: an
    [https://] URL constructs the very client that the same URL with
    [http://] constructs (or fails as that one does), and
    [get_server_url] then reports [http://]. *)
Theorem construct_ignores_scheme (rest : string) (timeout : Z) :
  construct ("https://" ++ rest) timeout = construct ("http://" ++ rest) timeout.
Proof.
  unfold construct, parse_url.
  rewrite find_http_scheme, find_https_scheme.
  pose proof (find_http_in_https rest) as Hno.
  destruct (find ("https://" ++ rest) "http://") as [[| n] |];
    [contradiction | reflexivity | reflexivity].
Qed.

(** X9.  Constructing a client from the URL that a client reports gives
    that client back, when its host has no colon and its port fits an
    [int]. *)
Theorem construct_get_server_url (self : LlamaClient) :
  find_char (host_ self) ":" = None ->
  in_int_range (port_ self) = true ->
  construct (get_server_url self) (timeout_seconds_ self) = Returns self.
Proof.
  intros Hhost Hport. destruct self as [host port timeout].
  cbn [host_ port_ timeout_seconds_] in *.
  unfold construct, get_server_url. cbn [host_ port_].
  rewrite (parse_url_split host _ Hhost), (stoi_to_string port Hport).
  reflexivity.
Qed.

Lemma construct_get_server_url_witness :
  construct (get_server_url Sample.on_8080) 300 = Returns Sample.on_8080.
Proof.
  apply (construct_get_server_url Sample.on_8080); reflexivity.
Defined.

Lemma digits_from_append (fuel : nat) :
  forall n acc rest,
    digits_from fuel n acc ++ rest = digits_from fuel n (acc ++ rest).
Proof.
  induction fuel as [| fuel IH]; intros n acc rest; [reflexivity |].
  rewrite !digits_from_unfold.
  destruct (n / 10 =? 0)%N; [reflexivity |]. apply IH.
Qed.

(** A numeral followed by a character that is no digit reads as the
    number. *)
Lemma scan_int_numeral_then (z : Z) (c : ascii) (rest : string) :
  digit_value c = None ->
  scan_int (to_string z ++ String c rest) = Some z.
Proof.
  intros Hc.
  assert (Hdec : forall n, exists d tail,
             (d < 10)%N
             /\ decimal n ++ String c rest = String (digit_char d) tail
             /\ scan_digits (String (digit_char d) tail) 0 = n).
  { intros n. unfold decimal. rewrite digits_from_append. cbn [append].
    destruct (digits_from_head (N.to_nat (N.size n)) n (String c rest))
      as (d & tail & Hd & Hhead).
    exists d, tail. split; [assumption |]. split; [assumption |].
    rewrite <- Hhead.
    destruct (scan_digits_digits_from (N.to_nat (N.size n)) n (String c rest))
      as [k Hk].
    - rewrite Nat2N.inj_succ, N2Nat.id, N.pow_succ_r'.
      pose proof (N.size_gt n). lia.
    - rewrite Hk. cbn [scan_digits]. rewrite Hc. reflexivity. }
  unfold to_string. destruct (z <? 0) eqn:Hneg.
  - apply Z.ltb_lt in Hneg.
    destruct (Hdec (Z.to_N (- z))) as (d & tail & Hd & Heq & Hscan).
    cbn [append]. rewrite Heq.
    destruct (digit_char_facts d Hd) as (Hval & _).
    unfold scan_int. cbn [skip_space].
    change (isspace "-") with false. cbv iota.
    change (Ascii.eqb "-" "-") with true. cbv iota.
    rewrite Hval, Hscan. f_equal. lia.
  - apply Z.ltb_ge in Hneg.
    destruct (Hdec (Z.to_N z)) as (d & tail & Hd & Heq & Hscan).
    rewrite Heq.
    destruct (digit_char_facts d Hd) as (Hval & Hsp & Hminus & Hplus).
    unfold scan_int. cbn [skip_space]. rewrite Hsp, Hminus, Hplus, Hval, Hscan.
    f_equal. lia.
Qed.

(** X10.  Whatever follows the port number in the URL (a path, a query)
    is dropped: the client gets the host and the port, and
    [get_server_url] reports the URL without it. *)
Theorem construct_drops_path (host : string) (port : Z) (c : ascii)
  (rest : string) (timeout : Z) :
  find_char host ":" = None ->
  in_int_range port = true ->
  digit_value c = None ->
  construct ("http://" ++ host ++ ":" ++ to_string port ++ String c rest) timeout
  = Returns {| host_ := host; port_ := port; timeout_seconds_ := timeout |}
  /\ get_server_url {| host_ := host; port_ := port; timeout_seconds_ := timeout |}
     = "http://" ++ host ++ ":" ++ to_string port.
Proof.
  intros Hhost Hport Hc. split; [| reflexivity].
  unfold construct. rewrite (parse_url_split host _ Hhost).
  unfold stoi. rewrite (scan_int_numeral_then port c rest Hc), Hport.
  reflexivity.
Qed.

Lemma construct_drops_path_witness :
  construct ("http://" ++ "localhost" ++ ":" ++ to_string 8080 ++ String "/" "v1") 300
  = Returns Sample.on_8080
  /\ get_server_url Sample.on_8080 = "http://" ++ "localhost" ++ ":" ++ to_string 8080.
Proof.
  apply (construct_drops_path "localhost" 8080 "/" "v1" 300); reflexivity.
Defined.

(** X11.  The constructor throws on a URL whose port is no [int]:
    [std::invalid_argument] when the text after the colon does not start
    with a number (it may be empty), [std::out_of_range] when it is the
    numeral of a number that no [int] holds. *)
Theorem construct_port_errors (host rest : string) (z timeout : Z) :
  find_char host ":" = None ->
  (scan_int rest = None ->
   exists what,
     construct ("http://" ++ host ++ ":" ++ rest) timeout
     = Throws (StdException InvalidArgument what))
  /\ (in_int_range z = false ->
      exists what,
        construct ("http://" ++ host ++ ":" ++ to_string z) timeout
        = Throws (StdException OutOfRange what)).
Proof.
  intros Hhost. split.
  - intros Hscan. unfold construct. rewrite (parse_url_split host _ Hhost).
    unfold stoi. rewrite Hscan. eexists. reflexivity.
  - intros Hz. unfold construct. rewrite (parse_url_split host _ Hhost).
    unfold stoi. rewrite scan_int_to_string, Hz. eexists. reflexivity.
Qed.

Lemma construct_port_errors_witness :
  (exists what,
      construct ("http://" ++ "localhost" ++ ":" ++ EmptyString) 300
      = Throws (StdException InvalidArgument what))
  /\ (exists what,
         construct ("http://" ++ "localhost" ++ ":" ++ to_string 99999999999) 300
         = Throws (StdException OutOfRange what)).
Proof.
  destruct (construct_port_errors "localhost" EmptyString 99999999999 300 eq_refl)
    as [Hinvalid Hrange].
  split; [apply Hinvalid | apply Hrange]; reflexivity.
Defined.

End UrlParsing.

(** ** AppServerBase: the constructor *)

Section ServerConstruction.

Import RuntimeConfig LlamaClient.

Lemma from_lines_port_in_range (os : System) (lines : list string)
  (c : RuntimeConfig) :
  from_lines os lines = Defined (Returns c) ->
  in_int_range (llama_server_port c) = true.
Proof.
  destruct lines as [| l1 [| l2 [| l3 [| l4 ?]]]]; cbn [from_lines]; intros H;
    repeat match type of H with
           | (if ?b then _ else _) = _ => destruct b
           | match extract_int ?l with _ => _ end = _ =>
               destruct (extract_int l) eqn:?
           | match expand_path ?o ?l with _ => _ end = _ =>
               destruct (expand_path o l)
           end; try discriminate.
  injection H as <-. cbn [llama_server_port].
  eapply extract_int_in_range; eassumption.
Qed.

(** X12.  On a configuration that [from_file] returned, the constructor
    of the server does not throw: its client is the one for [localhost] at
    the configured llama-server port with the default timeout of 300
    seconds, and the URL that client reports is the configuration's
    llama-server URL. *)
Theorem server_construct_from_config (os : System) (path : string)
  (cfg : RuntimeConfig) :
  from_file os path = Defined (Returns cfg) ->
  AppServerBase.construct cfg
  = Returns {| AppServerBase.config_ := cfg;
               AppServerBase.llama_client_ :=
                 {| host_ := "localhost";
                    port_ := llama_server_port cfg;
                    timeout_seconds_ := 300 |} |}
  /\ (forall self,
         AppServerBase.construct cfg = Returns self ->
         AppServerBase.get_config self = cfg
         /\ get_server_url (AppServerBase.get_llama_client self)
            = get_llama_server_url cfg).
Proof.
  intros Hfile.
  assert (Hport : in_int_range (llama_server_port cfg) = true).
  { unfold from_file in Hfile.
    destruct (ifstream_open os path) as [content |] eqn:Hopen; [| discriminate].
    fold (from_file os path) in Hfile.
    assert (Hlines : from_file os path = Defined (Returns cfg)).
    { unfold from_file. rewrite Hopen. exact Hfile. }
    rewrite (from_file_lines os path content Hopen) in Hlines.
    eapply from_lines_port_in_range; eassumption. }
  assert (Hconstruct :
            AppServerBase.construct cfg
            = Returns {| AppServerBase.config_ := cfg;
                         AppServerBase.llama_client_ :=
                           {| host_ := "localhost";
                              port_ := llama_server_port cfg;
                              timeout_seconds_ := 300 |} |}).
  { unfold AppServerBase.construct, construct, get_llama_server_url.
    change ("http://localhost:" ++ to_string (llama_server_port cfg))
      with ("http://" ++ "localhost" ++ ":" ++ to_string (llama_server_port cfg)).
    rewrite (parse_url_host_port "localhost" _ eq_refl Hport). reflexivity. }
  split; [exact Hconstruct |].
  intros self Hself. rewrite Hconstruct in Hself. injection Hself as <-.
  split; reflexivity.
Qed.

Lemma server_construct_from_config_witness :
  AppServerBase.construct
    {| llama_bin_path := "/usr/local/bin"; model_path := "/models/m.gguf";
       llama_server_port := 8080; app_server_port := 8081 |}
  = Returns {| AppServerBase.config_ :=
                 {| llama_bin_path := "/usr/local/bin";
                    model_path := "/models/m.gguf";
                    llama_server_port := 8080; app_server_port := 8081 |};
               AppServerBase.llama_client_ := Sample.on_8080 |}.
Proof.
  apply (server_construct_from_config Sample.system "config.txt"). reflexivity.
Defined.

End ServerConstruction.

(** ** LlamaClient: replies and results *)

Section ClientReplies.

Import LlamaClient.

Context {number_float : Type} {codec : Codec number_float} {net : Transport}.

(** What the three operations make of the reply to their request when it
    is no failure of theirs: a response with status 200 whose body parses
    gives the parsed value, and an exception of the transport passes
    through. *)
Lemma checked_reply_result (status_message : string)
  (reply : outcome (option Response)) :
  let result :=
    (res <- reply ;;
     match res with
     | None => Throws (runtime_error "HTTP request failed: connection error")
     | Some res =>
         if negb (status res =? 200)
         then Throws (runtime_error (status_message ++ to_string (status res)))
         else parse (body res)
     end) in
  (forall res j, reply = Returns (Some res) -> status res = 200 ->
                 parse_text (body res) = Done j -> result = Returns j)
  /\ (forall e, reply = Throws e -> result = Throws e).
Proof.
  cbv zeta. split.
  - intros res j -> Hst Hparse. cbn [bind]. rewrite Hst.
    change (negb (200 =? 200)) with false. cbv iota.
    unfold parse. rewrite Hparse. reflexivity.
  - intros e ->. reflexivity.
Qed.

(** X13.  [complete], [chat] and [get_models] return the parsed body of a
    response with status 200, and an exception thrown by the transport
    leaves them unchanged ([is_alive] alone swallows it). *)
Theorem client_results (self : LlamaClient) :
  (forall prompt max_tokens temperature request_body,
      dump (complete_request prompt max_tokens temperature) = Returns request_body ->
      let reply := Post (configured self) "/completion" request_body "application/json" in
      (forall res j, reply = Returns (Some res) -> status res = 200 ->
                     parse_text (body res) = Done j ->
                     complete self prompt max_tokens temperature = Returns j)
      /\ (forall e, reply = Throws e ->
                    complete self prompt max_tokens temperature = Throws e))
  /\ (forall messages max_tokens temperature request_body,
         dump (chat_request messages max_tokens temperature) = Returns request_body ->
         let reply := Post (configured self) "/v1/chat/completions" request_body
                        "application/json" in
         (forall res j, reply = Returns (Some res) -> status res = 200 ->
                        parse_text (body res) = Done j ->
                        chat self messages max_tokens temperature = Returns j)
         /\ (forall e, reply = Throws e ->
                       chat self messages max_tokens temperature = Throws e))
  /\ (let reply := Get (configured self) "/v1/models" in
      (forall res j, reply = Returns (Some res) -> status res = 200 ->
                     parse_text (body res) = Done j ->
                     get_models self = Returns j)
      /\ (forall e, reply = Throws e -> get_models self = Throws e)
      /\ (forall e, Get {| client_host := host_ self; client_port := port_ self;
                           read_timeout := Some 5; write_timeout := Some 5 |}
                      "/health" = Throws e ->
                    is_alive self = Returns false)).
Proof.
  split; [| split].
  - intros prompt max_tokens temperature request_body Hdump.
    unfold complete. rewrite Hdump. cbn [bind].
    apply (checked_reply_result "HTTP request failed with status: ").
  - intros messages max_tokens temperature request_body Hdump.
    unfold chat. rewrite Hdump. cbn [bind].
    apply (checked_reply_result "HTTP request failed with status: ").
  - cbv zeta.
    destruct (checked_reply_result "Failed to get models, status: "
                (Get (configured self) "/v1/models")) as [Hok Hthrow].
    split; [exact Hok | split; [exact Hthrow |]].
    intros e He. unfold is_alive.
    change (set_write_timeout _ _)
      with {| client_host := host_ self; client_port := port_ self;
              read_timeout := Some 5; write_timeout := Some 5 |}.
    rewrite He. reflexivity.
Qed.

(** X14.  For every JSON value of messages, token count and
    temperature, [chat] posts to [/v1/chat/completions], as
    [application/json] and through the client it configured for its host,
    port and timeouts, the serialisation of the object with exactly the
    members [max_tokens], [messages] and [temperature]: its result is
    what it makes of the reply to that request.  When that object cannot
    be serialised, [chat] throws the [type_error] and posts nothing. *)
Theorem chat_posts_request (self : LlamaClient)
  (messages : basic_json number_float) (max_tokens : Z)
  (temperature : number_float) :
  let request : basic_json number_float :=
    JObject [ ("max_tokens", JInt max_tokens);
              ("messages", messages);
              ("temperature", JFloat temperature) ] in
  chat_request messages max_tokens temperature = request
  /\ (forall request_body,
         dump_text request = Done request_body ->
         chat self messages max_tokens temperature
         = (res <- Post (configured self) "/v1/chat/completions" request_body
                     "application/json" ;;
            match res with
            | None =>
                Throws (runtime_error "HTTP request failed: connection error")
            | Some res =>
                if negb (status res =? 200)
                then Throws (runtime_error
                       ("HTTP request failed with status: "
                        ++ to_string (status res)))
                else parse (body res)
            end))
  /\ (forall what,
         dump_text request = Failed what ->
         chat self messages max_tokens temperature
         = Throws (StdException TypeError what)).
Proof.
  cbv zeta. split; [reflexivity |].
  unfold chat.
  change (chat_request messages max_tokens temperature)
    with (JObject [ ("max_tokens", JInt max_tokens);
                    ("messages", messages);
                    ("temperature", JFloat temperature) ]
          : basic_json number_float).
  unfold dump. split.
  - intros request_body ->. reflexivity.
  - intros what ->. reflexivity.
Qed.

(** When the request does not serialise, [complete] and [chat] fail with
    the [type_error] of [dump] and send nothing: the result is the same on
    every network. *)
Lemma no_request_without_body (self : LlamaClient) (what : string) :
  (forall prompt max_tokens temperature,
      dump_text (complete_request prompt max_tokens temperature) = Failed what ->
      complete self prompt max_tokens temperature
      = Throws (StdException TypeError what))
  /\ (forall messages max_tokens temperature,
         dump_text (chat_request messages max_tokens temperature) = Failed what ->
         chat self messages max_tokens temperature
         = Throws (StdException TypeError what)).
Proof.
  split; intros; unfold complete, chat, dump;
    match goal with H : dump_text _ = Failed _ |- _ => rewrite H end;
    reflexivity.
Qed.

End ClientReplies.

Section ClientReplySamples.

Import LlamaClient.

(** The sample backend answers a chat with the document [null]. *)
Lemma client_results_witness :
  @chat _ Sample.codec Sample.backend Sample.on_8080
    (JArray []) 16 (700 : Sample.number)
  = Returns JNull.
Proof.
  destruct (@client_results _ Sample.codec Sample.backend Sample.on_8080)
    as [_ [Hchat _]].
  destruct (Hchat (JArray []) 16 (700 : Sample.number)
              (Sample.render (chat_request (JArray []) 16 (700 : Sample.number)))
              eq_refl) as [Hok _].
  apply (Hok {| status := 200; body := "null" |} JNull); reflexivity.
Defined.

(** A backend that answers nothing but the POST to
    [/v1/chat/completions] of the chat request for no messages, 16 tokens
    and temperature 700 does answer [chat]; and it refuses the same text
    sent to [/completion]. *)
Lemma chat_posts_request_witness :
  @chat _ Sample.codec
    (MoreSamples.strict_backend "/v1/chat/completions" MoreSamples.empty_chat_body)
    Sample.on_8080 (JArray []) 16 (700 : Sample.number)
  = Returns JNull
  /\ @chat _ Sample.codec
       (MoreSamples.strict_backend "/completion" MoreSamples.empty_chat_body)
       Sample.on_8080 (JArray []) 16 (700 : Sample.number)
     = Throws (runtime_error "HTTP request failed with status: 400").
Proof.
  split.
  - destruct (@chat_posts_request Sample.number Sample.codec
                (MoreSamples.strict_backend "/v1/chat/completions"
                   MoreSamples.empty_chat_body)
                Sample.on_8080 (JArray []) 16 700) as [_ [Hposts _]].
    rewrite (Hposts MoreSamples.empty_chat_body eq_refl). reflexivity.
  - destruct (@chat_posts_request Sample.number Sample.codec
                (MoreSamples.strict_backend "/completion"
                   MoreSamples.empty_chat_body)
                Sample.on_8080 (JArray []) 16 700) as [_ [Hposts _]].
    rewrite (Hposts MoreSamples.empty_chat_body eq_refl). reflexivity.
Defined.

End ClientReplySamples.

(** ** AppServerBase: the business route, further *)

Section BusinessRouteMore.

Import AppServerBase.

Context {number_float : Type} {codec : Codec number_float}.
Variable Derived : Type.
Variable process_request :
  basic_json number_float -> Derived -> outcome (basic_json number_float) * Derived.

Local Abbreviation api := (api_route Derived process_request).

(** X15.  When the body parses, [process_request] returns and its output
    serialises, the response carries that output as [application/json],
    its status is left as the listener set it, no exception leaves the
    route, and [process_request] was called once, with the parsed
    body. *)
Theorem api_success (req : Request) (res : Response) (srv : Server Derived)
  (request response_ : basic_json number_float) (d : Derived) (s : string) :
  parse_text (req_body req) = Done request ->
  process_request request (derived srv) = (Returns response_, d) ->
  dump_text response_ = Done s ->
  api req res srv
  = ({| response := {| res_status := res_status res; res_body := s;
                       res_content_type := Some "application/json" |};
        escaped := None |},
     {| derived := d; invocations := request :: invocations srv |}).
Proof.
  intros Hparse Hcall Hdump.
  unfold api_route, api_try, parse, dump, call_process_request.
  rewrite Hparse, Hcall, Hdump. reflexivity.
Qed.

(** X16.  The route writes no status but 500: whatever the request, the
    handler and the codec do, the status of the response is the one it had
    or 500; and when no exception leaves the route, the response has a
    body of type [application/json]. *)
Theorem api_status_unchanged_or_500 (req : Request) (res : Response)
  (srv : Server Derived) :
  (res_status (response (fst (api req res srv))) = res_status res
   \/ res_status (response (fst (api req res srv))) = 500)
  /\ (escaped (fst (api req res srv)) = None ->
      res_content_type (response (fst (api req res srv)))
      = Some "application/json").
Proof.
  unfold api_route, api_try, call_process_request.
  destruct (parse (req_body req)) as [request | [cls what |]].
  - destruct (process_request request (derived srv)) as [[response_ | [cls what |]] d].
    + destruct (dump response_) as [s | [cls what |]].
      * split; [left; reflexivity | reflexivity].
      * destruct (dump _); cbn; split; auto; discriminate.
      * cbn. split; [left; reflexivity | discriminate].
    + destruct (dump _); cbn; split; auto; discriminate.
    + cbn. split; [left; reflexivity | discriminate].
  - destruct (dump _); cbn; split; auto; discriminate.
  - cbn. split; [left; reflexivity | discriminate].
Qed.

(** X17.  An output of [process_request] that does not serialise is
    handled like an exception of the handler: [process_request] has been
    called, the status is 500 and, when the error object serialises, the
    payload carries the message of the [type_error]. *)
Theorem api_output_not_serialisable (req : Request) (res : Response)
  (srv : Server Derived) (request response_ : basic_json number_float)
  (d : Derived) (what : string) :
  parse_text (req_body req) = Done request ->
  process_request request (derived srv) = (Returns response_, d) ->
  dump_text response_ = Failed what ->
  snd (api req res srv)
  = {| derived := d; invocations := request :: invocations srv |}
  /\ res_status (response (fst (api req res srv))) = 500
  /\ (forall s,
         dump_text (JObject [("error", JString what); ("status", JString "failed")])
         = Done s ->
         fst (api req res srv)
         = {| response := {| res_status := 500; res_body := s;
                             res_content_type := Some "application/json" |};
              escaped := None |}).
Proof.
  intros Hparse Hcall Hdump.
  apply api_route_caught with (cls := TypeError).
  unfold api_try, parse, dump, call_process_request.
  rewrite Hparse, Hcall, Hdump. reflexivity.
Qed.

(** What leaves the route, read off the [try] block: nothing when the
    block returns; the thrown value when it is no [std::exception]; and
    when it is one, with message [what], nothing unless the error object
    for [what] fails to serialise, in which case the [type_error] of that
    serialisation leaves. *)
Lemma api_route_escaped (req : Request) (res : Response) (srv : Server Derived) :
  escaped (fst (api req res srv))
  = match fst (fst (api_try Derived process_request req res srv)) with
    | Returns _ => None
    | Throws (StdException _ what) =>
        match dump_text (JObject [("error", JString what);
                                  ("status", JString "failed")]
                         : basic_json number_float) with
        | Done _ => None
        | Failed what' => Some (StdException TypeError what')
        end
    | Throws Foreign => Some Foreign
    end.
Proof.
  unfold api_route.
  destruct (api_try Derived process_request req res srv) as [[tried res'] srv'].
  cbn [fst]. destruct tried as [[] | [cls what |]]; [reflexivity | | reflexivity].
  rewrite error_object. unfold dump.
  destruct (dump_text _); reflexivity.
Qed.

(** What the [try] block throws, read off the request: the parser's
    error, what [process_request] throws, or the [type_error] of
    serialising the output of [process_request]. *)
Lemma api_try_outcome (req : Request) (res : Response) (srv : Server Derived) :
  fst (fst (api_try Derived process_request req res srv))
  = match parse_text (req_body req) with
    | Failed what => Throws (StdException ParseError what)
    | Done request =>
        match fst (process_request request (derived srv)) with
        | Throws e => Throws e
        | Returns response_ =>
            match dump_text response_ with
            | Failed what => Throws (StdException TypeError what)
            | Done _ => Returns tt
            end
        end
    end.
Proof.
  unfold api_try, call_process_request, parse, dump.
  destruct (parse_text (req_body req)) as [request | what]; [| reflexivity].
  destruct (process_request request (derived srv)) as [[response_ | e] d];
    cbn [fst]; [| reflexivity].
  destruct (dump_text response_); reflexivity.
Qed.

(** X18.  An exception [e] leaves the route in exactly two cases: the
    body parsed and [process_request] threw a value that is no
    [std::exception], which is [e]; or a [std::exception] with message
    [what] was caught (the parser's error, an exception of
    [process_request], or the [type_error] of serialising its output), the
    error object for [what] could not be serialised, and [e] is the
    [type_error] of that serialisation.  So a body that does not parse and
    a [std::exception] thrown by [process_request] never reach the
    listener when the error object can be serialised. *)
Theorem api_escapes (req : Request) (res : Response) (srv : Server Derived) :
  (forall e,
      escaped (fst (api req res srv)) = Some e
      <-> (e = Foreign
           /\ exists request,
                parse_text (req_body req) = Done request
                /\ fst (process_request request (derived srv)) = Throws Foreign)
          \/ (exists what what',
                 (parse_text (req_body req) = Failed what
                  \/ (exists request cls,
                         parse_text (req_body req) = Done request
                         /\ fst (process_request request (derived srv))
                            = Throws (StdException cls what))
                  \/ (exists request response_,
                         parse_text (req_body req) = Done request
                         /\ fst (process_request request (derived srv))
                            = Returns response_
                         /\ dump_text response_ = Failed what))
                 /\ dump_text (JObject [("error", JString what);
                                        ("status", JString "failed")]
                               : basic_json number_float)
                    = Failed what'
                 /\ e = StdException TypeError what'))
  /\ (forall what s,
         parse_text (req_body req) = Failed what ->
         dump_text (JObject [("error", JString what); ("status", JString "failed")]
                    : basic_json number_float)
         = Done s ->
         escaped (fst (api req res srv)) = None)
  /\ (forall request cls what s,
         parse_text (req_body req) = Done request ->
         fst (process_request request (derived srv))
         = Throws (StdException cls what) ->
         dump_text (JObject [("error", JString what); ("status", JString "failed")]
                    : basic_json number_float)
         = Done s ->
         escaped (fst (api req res srv)) = None).
Proof.
  rewrite api_route_escaped, api_try_outcome.
  split; [| split].
  - intros e. split.
    + destruct (parse_text (req_body req)) as [request | what] eqn:Hparse.
      * destruct (fst (process_request request (derived srv)))
          as [response_ | [cls what |]] eqn:Hcall.
        -- destruct (dump_text response_) as [s | what] eqn:Hdump; [discriminate |].
           destruct (dump_text (JObject _)) as [s | what'] eqn:Herr; [discriminate |].
           intros H. injection H as <-. right. exists what, what'.
           split; [| split; [exact Herr | reflexivity]].
           right. right. exists request, response_. auto.
        -- destruct (dump_text (JObject _)) as [s | what'] eqn:Herr; [discriminate |].
           intros H. injection H as <-. right. exists what, what'.
           split; [| split; [exact Herr | reflexivity]].
           right. left. exists request, cls. auto.
        -- intros H. injection H as <-. left. split; [reflexivity |].
           exists request. auto.
      * destruct (dump_text (JObject _)) as [s | what'] eqn:Herr; [discriminate |].
        intros H. injection H as <-. right. exists what, what'.
        split; [| split; [exact Herr | reflexivity]].
        left. reflexivity.
    + intros [[-> (request & -> & ->)] | (what & what' & Hcaught & Herr & ->)].
      * reflexivity.
      * destruct Hcaught as [-> | [(request & cls & -> & ->)
                                  | (request & response_ & -> & -> & ->)]];
          rewrite Herr; reflexivity.
  - intros what s -> ->. reflexivity.
  - intros request cls what s -> -> ->. reflexivity.
Qed.

(** X19.  [process_request] is called exactly when the body parses, once
    and with the parsed body: the record of calls grows by that request,
    or stays as it is. *)
Theorem api_invocations (req : Request) (res : Response) (srv : Server Derived) :
  invocations (snd (api req res srv))
  = match parse_text (req_body req) with
    | Done request => request :: invocations srv
    | Failed _ => invocations srv
    end.
Proof.
  destruct (parse_text (req_body req)) as [request | what] eqn:Hparse.
  - now destruct (api_route_invokes Derived process_request req res srv request Hparse).
  - destruct (api_invalid_body Derived process_request req res srv what Hparse)
      as [-> _].
    reflexivity.
Qed.

End BusinessRouteMore.

Section BusinessRouteSamples.

Import AppServerBase.

Local Abbreviation echo_api :=
  (@api_route Sample.number Sample.codec nat Sample.process_request).

Local Abbreviation strict_api :=
  (@api_route Sample.number MoreSamples.strict_codec nat MoreSamples.process_request).

Lemma api_success_witness :
  echo_api {| req_body := "42" |} Sample.fresh_response Sample.fresh_server
  = ({| response := {| res_status := -1; res_body := "42";
                       res_content_type := Some "application/json" |};
        escaped := None |},
     {| derived := 1%nat; invocations := [JInt 42] |}).
Proof.
  apply (@api_success Sample.number Sample.codec nat Sample.process_request
           {| req_body := "42" |} Sample.fresh_response Sample.fresh_server
           (JInt 42) (JInt 42) 1%nat "42"); reflexivity.
Defined.

Lemma api_output_not_serialisable_witness :
  fst (strict_api {| req_body := "1" |} Sample.fresh_response Sample.fresh_server)
  = {| response :=
         {| res_status := 500;
            res_body :=
              Sample.render
                (JObject [("error", JString "invalid UTF-8 byte");
                          ("status", JString "failed")]);
            res_content_type := Some "application/json" |};
       escaped := None |}
  /\ invocations (snd (strict_api {| req_body := "1" |} Sample.fresh_response
                         Sample.fresh_server))
     = [JInt 1].
Proof.
  destruct (@api_output_not_serialisable Sample.number MoreSamples.strict_codec nat
              MoreSamples.process_request
              {| req_body := "1" |} Sample.fresh_response Sample.fresh_server
              (JInt 1) (JString (String "255"%char EmptyString)) 1%nat
              "invalid UTF-8 byte" eq_refl eq_refl eq_refl)
    as (Hsrv & _ & Hbody).
  split.
  - apply Hbody. reflexivity.
  - rewrite Hsrv. reflexivity.
Defined.

(** A thrown integer leaves the route; the [std::runtime_error] that the
    sample handler throws on a boolean, and the parser's error on a body
    that is no JSON, do not; with a codec that cannot write the handler's
    message the [type_error] of the error object leaves. *)
Lemma api_escapes_witness :
  escaped (fst (echo_api {| req_body := "null" |} Sample.fresh_response
                  Sample.fresh_server))
  = Some Foreign
  /\ escaped (fst (echo_api {| req_body := "{" |} Sample.fresh_response
                     Sample.fresh_server))
     = None
  /\ escaped (fst (echo_api {| req_body := "true" |} Sample.fresh_response
                     Sample.fresh_server))
     = None
  /\ escaped (fst (@api_route Sample.number MoreSamples.strict_codec nat
                     MoreSamples.failing_request
                     {| req_body := "1" |} Sample.fresh_response
                     Sample.fresh_server))
     = Some (StdException TypeError "invalid UTF-8 byte").
Proof.
  split; [| split; [| split]].
  - apply (@api_escapes Sample.number Sample.codec nat Sample.process_request
             {| req_body := "null" |} Sample.fresh_response Sample.fresh_server).
    left. split; [reflexivity |]. exists JNull. split; reflexivity.
  - destruct (@api_escapes Sample.number Sample.codec nat Sample.process_request
                {| req_body := "{" |} Sample.fresh_response Sample.fresh_server)
      as [_ [Hparse _]].
    apply (Hparse "syntax error while parsing value"
             (Sample.render
                (JObject [("error", JString "syntax error while parsing value");
                          ("status", JString "failed")])));
      reflexivity.
  - destruct (@api_escapes Sample.number Sample.codec nat Sample.process_request
                {| req_body := "true" |} Sample.fresh_response Sample.fresh_server)
      as [_ [_ Hhandler]].
    apply (Hhandler (JBool true) RuntimeError "no booleans"
             (Sample.render
                (JObject [("error", JString "no booleans");
                          ("status", JString "failed")])));
      reflexivity.
  - apply (@api_escapes Sample.number MoreSamples.strict_codec nat
             MoreSamples.failing_request
             {| req_body := "1" |} Sample.fresh_response Sample.fresh_server).
    right. exists (String "255"%char EmptyString), "invalid UTF-8 byte".
    split; [| split; reflexivity].
    right. left. exists (JInt 1), RuntimeError. split; reflexivity.
Defined.

End BusinessRouteSamples.

(** ** ProjectGenerator: [read_file] *)

Section ReadFile.

Import ProjectGenerator.

Lemma split_line_shorter (c : ascii) (s : string) :
  (String.length (snd (split_line (String c s))) <= String.length s)%nat.
Proof.
  revert c. induction s as [| a s IH]; intros c; cbn [split_line].
  - destruct (Ascii.eqb c nl); cbn; lia.
  - destruct (Ascii.eqb c nl); [cbn; lia |].
    specialize (IH a). cbn [split_line] in IH.
    destruct (Ascii.eqb a nl).
    + cbn [snd String.length] in *. lia.
    + destruct (split_line s) as [l r]. cbn [snd String.length] in *. lia.
Qed.

(** A text with its final newline is its first line, a newline, and the
    rest with its final newline. *)
Lemma with_final_newline_split (c : ascii) (s : string) :
  with_final_newline (String c s)
  = fst (split_line (String c s))
    ++ String nl (with_final_newline (snd (split_line (String c s)))).
Proof.
  revert c. induction s as [| a s IH]; intros c.
  - cbn [with_final_newline split_line].
    destruct (Ascii.eqb c nl) eqn:Hc; [| reflexivity].
    apply Ascii.eqb_eq in Hc. subst c. reflexivity.
  - change (with_final_newline (String c (String a s)))
      with (String c (with_final_newline (String a s))).
    assert (Hsplit : split_line (String c (String a s))
                     = if Ascii.eqb c nl then (EmptyString, String a s)
                       else let '(l, r) := split_line (String a s) in
                            (String c l, r)) by reflexivity.
    rewrite Hsplit. destruct (Ascii.eqb c nl) eqn:Hc.
    + apply Ascii.eqb_eq in Hc. subst c. reflexivity.
    + rewrite IH. destruct (split_line (String a s)) as [l r]. reflexivity.
Qed.

Lemma read_lines_into_spec (fuel : nat) :
  forall file content,
    (String.length file < fuel)%nat ->
    read_lines_into fuel file content = content ++ with_final_newline file.
Proof.
  induction fuel as [| fuel IH]; intros file content Hfuel; [lia |].
  cbn [read_lines_into]. destruct file as [| c s].
  - cbn [getline with_final_newline]. now rewrite append_empty_r.
  - cbn [getline].
    pose proof (split_line_shorter c s) as Hshort.
    rewrite (with_final_newline_split c s).
    destruct (split_line (String c s)) as [line rest]. cbn [fst snd] in *.
    rewrite IH by (cbn [String.length] in Hfuel; lia).
    rewrite !append_assoc. reflexivity.
Qed.

Lemma with_final_newline_terminated (s : string) :
  with_final_newline (s ++ String nl EmptyString) = s ++ String nl EmptyString.
Proof.
  induction s as [| c s IH]; [reflexivity |].
  cbn [append]. destruct s as [| a s]; [reflexivity |].
  cbn [append] in *.
  change (with_final_newline (String c (String a (s ++ String nl EmptyString))))
    with (String c (with_final_newline (String a (s ++ String nl EmptyString)))).
  now rewrite IH.
Qed.

Lemma with_final_newline_open (s : string) (c : ascii) :
  c <> nl ->
  with_final_newline (s ++ String c EmptyString)
  = s ++ String c (String nl EmptyString).
Proof.
  intros Hc. induction s as [| a s IH].
  - cbn [append with_final_newline].
    destruct (Ascii.eqb c nl) eqn:E; [apply Ascii.eqb_eq in E; contradiction |].
    reflexivity.
  - cbn [append]. destruct s as [| b s].
    + cbn [append] in *.
      change (with_final_newline (String a (String c EmptyString)))
        with (String a (with_final_newline (String c EmptyString))).
      now rewrite IH.
    + cbn [append] in *.
      change (with_final_newline (String a (String b (s ++ String c EmptyString))))
        with (String a (with_final_newline (String b (s ++ String c EmptyString)))).
      now rewrite IH.
Qed.

(** X20.  [read_file] returns the text of the file with every line
    terminated: an empty file gives the empty string, a file that ends
    with a newline comes back unchanged, and any other file comes back
    with one newline added. *)
Theorem read_file_terminates_lines (open : string -> option string)
  (filepath file : string) :
  open filepath = Some file ->
  exists content,
    read_file open filepath = Returns content
    /\ (file = EmptyString -> content = EmptyString)
    /\ (forall s, file = s ++ String nl EmptyString -> content = file)
    /\ (forall s c, file = s ++ String c EmptyString -> c <> nl ->
                    content = file ++ String nl EmptyString).
Proof.
  intros Hopen. exists (with_final_newline file). unfold read_file.
  rewrite Hopen, read_lines_into_spec by lia. cbn [append].
  split; [reflexivity |]. split; [| split].
  - intros ->. reflexivity.
  - intros s ->. apply with_final_newline_terminated.
  - intros s c -> Hc. rewrite (with_final_newline_open s c Hc).
    rewrite append_assoc. reflexivity.
Qed.

Lemma read_file_terminates_lines_witness :
  read_file (RuntimeConfig.ifstream_open Sample.system) "config.txt" = Returns Sample.config_txt
  /\ read_file (fun _ => Some ("a" ++ String nl "b")) "any"
     = Returns ("a" ++ String nl ("b" ++ String nl EmptyString)).
Proof.
  split.
  - destruct (read_file_terminates_lines (RuntimeConfig.ifstream_open Sample.system)
                "config.txt" Sample.config_txt eq_refl)
      as (content & -> & _ & Hsame & _).
    f_equal.
    apply (Hsame ("/usr/local/bin" ++ String nl ("/models/m.gguf" ++ String nl
                    ("8080" ++ String nl "8081")))).
    reflexivity.
  - destruct (read_file_terminates_lines (fun _ => Some ("a" ++ String nl "b"))
                "any" ("a" ++ String nl "b") eq_refl)
      as (content & -> & _ & _ & Hadd).
    f_equal. apply (Hadd ("a" ++ String nl EmptyString) "b"%char);
      [reflexivity | discriminate].
Defined.

End ReadFile.

(** ** ProjectGenerator: the replacement loop *)

Section ReplaceLoop.

Import ProjectGenerator.

Lemma prefix_split (p : string) :
  forall s, String.prefix p s = true -> s = p ++ drop (String.length p) s.
Proof.
  induction p as [| a p IH]; intros s H; [reflexivity |].
  destruct s as [| b s]; [discriminate |].
  cbn [String.prefix] in H. destruct (ascii_dec a b) as [<- |]; [| discriminate].
  cbn [append String.length drop]. f_equal. now apply IH.
Qed.

Lemma prefix_append (p rest : string) : String.prefix p (p ++ rest) = true.
Proof.
  induction p as [| a p IH]; [apply prefix_empty |].
  cbn [append String.prefix].
  destruct (ascii_dec a a) as [_ | Hneq]; [exact IH | contradiction].
Qed.

Lemma index_unfold_zero (pat : string) (b : ascii) (s : string) :
  String.index 0 pat (String b s)
  = if String.prefix pat (String b s) then Some O
    else match String.index 0 pat s with
         | Some n => Some (S n)
         | None => None
         end.
Proof. reflexivity. Qed.

Lemma index_unfold_succ (n : nat) (pat : string) (b : ascii) (s : string) :
  String.index (S n) pat (String b s)
  = match String.index n pat s with
    | Some k => Some (S k)
    | None => None
    end.
Proof. reflexivity. Qed.

(** Searching from the end of [done] is searching what follows it. *)
Lemma index_after (pat done rest : string) :
  String.index (String.length done) pat (done ++ rest)
  = option_map (fun k => (String.length done + k)%nat) (String.index 0 pat rest).
Proof.
  induction done as [| c done IH]; cbn [append String.length].
  - destruct (String.index 0 pat rest); reflexivity.
  - rewrite index_unfold_succ, IH.
    destruct (String.index 0 pat rest); reflexivity.
Qed.

(** Where the pattern is found, it is. *)
Lemma index_found (pat : string) :
  forall s k,
    String.index 0 pat s = Some k ->
    s = take k s ++ pat ++ drop (k + String.length pat) s.
Proof.
  induction s as [| b s IH]; intros k H.
  - cbn in H. destruct pat; [| discriminate]. injection H as <-. reflexivity.
  - rewrite index_unfold_zero in H.
    destruct (String.prefix pat (String b s)) eqn:Hp.
    + injection H as <-. cbn [take Nat.add].
      destruct pat; [reflexivity |]. now apply prefix_split.
    + destruct (String.index 0 pat s) as [k' |]; [| discriminate].
      injection H as <-. cbn [take drop Nat.add append].
      f_equal. now apply IH.
Qed.

Lemma take_length_le (k : nat) :
  forall s, (k <= String.length s)%nat -> String.length (take k s) = k.
Proof.
  induction k as [| k IH]; intros s H; [destruct s; reflexivity |].
  destruct s as [| c s]; cbn [String.length] in H; [lia |].
  cbn [take String.length]. rewrite IH by lia. reflexivity.
Qed.

Lemma drop_length (k : nat) :
  forall s, String.length (drop k s) = (String.length s - k)%nat.
Proof.
  induction k as [| k IH]; intros s; cbn [drop]; [lia |].
  destruct s as [| c s]; cbn [String.length]; [reflexivity | apply IH].
Qed.

Lemma index_found_bound (pat : string) :
  forall s k,
    String.index 0 pat s = Some k ->
    (k + String.length pat <= String.length s)%nat.
Proof.
  induction s as [| b s IH]; intros k H.
  - cbn in H. destruct pat; [| discriminate]. injection H as <-. cbn. lia.
  - rewrite index_unfold_zero in H.
    destruct (String.prefix pat (String b s)) eqn:Hp.
    + injection H as <-. apply prefix_split in Hp.
      apply (f_equal String.length) in Hp. rewrite length_append in Hp. lia.
    + destruct (String.index 0 pat s) as [k' |]; [| discriminate].
      injection H as <-. specialize (IH k' eq_refl).
      cbn [String.length]. lia.
Qed.

Lemma take_after (done rest : string) (k : nat) :
  take (String.length done + k) (done ++ rest) = done ++ take k rest.
Proof.
  induction done as [| c done IH]; cbn [append String.length Nat.add take];
    [reflexivity | now rewrite IH].
Qed.

Lemma drop_after (done rest : string) (k : nat) :
  drop (String.length done + k) (done ++ rest) = drop k rest.
Proof.
  induction done as [| c done IH]; cbn [append String.length Nat.add drop];
    [reflexivity | exact IH].
Qed.

Variables (pattern : string) (n : nat) (replacement : string).

(** The loop at position [length done] of [done ++ rest] leaves [done]
    alone and works on [rest] as it would from its start. *)
Lemma replace_loop_after (fuel : nat) :
  forall done rest,
    replace_loop fuel pattern n replacement (done ++ rest) (String.length done)
    = done ++ replace_loop fuel pattern n replacement rest 0.
Proof.
  induction fuel as [| fuel IH]; intros done rest; [reflexivity |].
  cbn [replace_loop]. unfold find_from.
  rewrite index_after.
  change (String.index 0 pattern rest) with (String.index 0 pattern rest).
  destruct (String.index 0 pattern rest) as [k |] eqn:Hfind; cbn [option_map];
    [| reflexivity].
  pose proof (index_found_bound pattern rest k Hfind) as Hbound.
  unfold replace.
  rewrite take_after, <- Nat.add_assoc, drop_after.
  assert (Hleft : (done ++ take k rest) ++ replacement ++ drop (k + n) rest
                  = (done ++ take k rest ++ replacement) ++ drop (k + n) rest).
  { now rewrite !append_assoc. }
  assert (Hpos : (String.length done + k + String.length replacement)%nat
                 = String.length (done ++ take k rest ++ replacement)).
  { rewrite !length_append, take_length_le by lia. lia. }
  rewrite Hleft, Hpos, IH.
  assert (Hright : take k rest ++ replacement ++ drop (k + n) rest
                   = (take k rest ++ replacement) ++ drop (k + n) rest).
  { now rewrite append_assoc. }
  assert (Hpos' : (k + String.length replacement)%nat
                  = String.length (take k rest ++ replacement)).
  { rewrite length_append, take_length_le by lia. reflexivity. }
  cbn [Nat.add]. rewrite Hright, Hpos', IH.
  now rewrite !append_assoc.
Qed.

Hypothesis pattern_length : n = String.length pattern.
Hypothesis pattern_not_empty : pattern <> EmptyString.

Lemma pattern_positive : (1 <= n)%nat.
Proof.
  rewrite pattern_length. destruct pattern; [contradiction | cbn; lia].
Qed.

(** One turn of the loop from the start of a text. *)
Lemma replace_loop_turn (fuel : nat) (s : string) (k : nat) :
  String.index 0 pattern s = Some k ->
  replace_loop (S fuel) pattern n replacement s 0
  = take k s ++ replacement
    ++ replace_loop fuel pattern n replacement (drop (k + n) s) 0.
Proof.
  intros Hfind. cbn [replace_loop]. unfold find_from. rewrite Hfind.
  pose proof (index_found_bound pattern s k Hfind) as Hbound.
  unfold replace.
  assert (Hright : take k s ++ replacement ++ drop (k + n) s
                   = (take k s ++ replacement) ++ drop (k + n) s).
  { now rewrite append_assoc. }
  assert (Hpos : (k + String.length replacement)%nat
                 = String.length (take k s ++ replacement)).
  { rewrite length_append, take_length_le by lia. reflexivity. }
  rewrite Hright, Hpos, replace_loop_after. now rewrite append_assoc.
Qed.

(** More fuel than the text is long is as good as any more. *)
Lemma replace_loop_fuel (fuel : nat) :
  forall fuel' s,
    (String.length s < fuel)%nat -> (String.length s < fuel')%nat ->
    replace_loop fuel pattern n replacement s 0
    = replace_loop fuel' pattern n replacement s 0.
Proof.
  pose proof pattern_positive as Hn.
  induction fuel as [| fuel IH]; intros fuel' s Hf Hf'; [lia |].
  destruct fuel' as [| fuel']; [lia |].
  destruct (String.index 0 pattern s) as [k |] eqn:Hfind.
  - rewrite !(replace_loop_turn _ s k Hfind).
    pose proof (index_found_bound pattern s k Hfind) as Hbound.
    f_equal. f_equal. apply IH; rewrite drop_length; lia.
  - cbn [replace_loop]. unfold find_from. rewrite Hfind. reflexivity.
Qed.

(** X21.  The loop replaces the occurrences of the pattern from left to
    right and never looks again at what it put in: a text without the
    pattern is left as it is, and otherwise the result is the text before
    the first occurrence, the replacement, and the result for the text
    after that occurrence. *)
Theorem replace_every_unfold (content : string) :
  (String.index 0 pattern content = None ->
   replace_every pattern n replacement content = content)
  /\ (forall k,
         String.index 0 pattern content = Some k ->
         replace_every pattern n replacement content
         = take k content ++ replacement
           ++ replace_every pattern n replacement (drop (k + n) content)).
Proof.
  pose proof pattern_positive as Hn. unfold replace_every. split.
  - intros Hfind. cbn [replace_loop]. unfold find_from. rewrite Hfind. reflexivity.
  - intros k Hfind. rewrite (replace_loop_turn _ content k Hfind).
    pose proof (index_found_bound pattern content k Hfind) as Hbound.
    f_equal. f_equal. apply replace_loop_fuel; rewrite drop_length; lia.
Qed.

End ReplaceLoop.

Lemma replace_every_unfold_witness :
  ProjectGenerator.replace_every "{{DATE}}" 8 "today" "a{{DATE}}b{{DATE}}"
  = "a" ++ "today"
    ++ ProjectGenerator.replace_every "{{DATE}}" 8 "today" "b{{DATE}}".
Proof.
  destruct (replace_every_unfold "{{DATE}}" 8 "today" eq_refl
              ltac:(discriminate) "a{{DATE}}b{{DATE}}") as [_ Hsome].
  apply (Hsome 1%nat). reflexivity.
Defined.

(** ** ProjectGenerator: templates *)

Section Templates.

Import ProjectGenerator.

Section OnePattern.

Variables (pattern : string) (n : nat) (replacement : string).
Hypothesis pattern_length : n = String.length pattern.
Hypothesis pattern_not_empty : pattern <> EmptyString.

Lemma replace_every_found (content : string) (k : nat) :
  String.index 0 pattern content = Some k ->
  replace_every pattern n replacement content
  = take k content ++ replacement
    ++ replace_every pattern n replacement (drop (k + n) content).
Proof.
  intros Hfind. unfold replace_every.
  rewrite (replace_loop_turn pattern n replacement pattern_length _ content k Hfind).
  pose proof (index_found_bound pattern content k Hfind) as Hbound.
  pose proof (pattern_positive pattern n pattern_length pattern_not_empty).
  f_equal. f_equal.
  apply (replace_loop_fuel pattern n replacement pattern_length pattern_not_empty);
    rewrite drop_length; lia.
Qed.

Lemma replace_every_absent (content : string) :
  String.index 0 pattern content = None ->
  replace_every pattern n replacement content = content.
Proof.
  intros Hfind. unfold replace_every. cbn [replace_loop]. unfold find_from.
  rewrite Hfind. reflexivity.
Qed.

Lemma replace_every_skip (a rest : string) :
  skipped pattern a ->
  replace_every pattern n replacement (a ++ rest)
  = a ++ replace_every pattern n replacement rest.
Proof.
  intros Hskip. specialize (Hskip rest).
  destruct (String.index 0 pattern rest) as [k |] eqn:Hfind; cbn [option_map] in Hskip.
  - rewrite (replace_every_found _ _ Hskip), (replace_every_found _ _ Hfind).
    rewrite take_after, <- Nat.add_assoc, drop_after.
    now rewrite append_assoc.
  - rewrite (replace_every_absent _ Hskip), (replace_every_absent _ Hfind).
    reflexivity.
Qed.

Lemma replace_every_hit (rest : string) :
  replace_every pattern n replacement (pattern ++ rest)
  = replacement ++ replace_every pattern n replacement rest.
Proof.
  assert (Hfind : String.index 0 pattern (pattern ++ rest) = Some O).
  { destruct pattern as [| b p] eqn:Hp; [contradiction |].
    cbn [append]. rewrite index_unfold_zero.
    change (String b (p ++ rest)) with (String b p ++ rest).
    now rewrite prefix_append. }
  rewrite (replace_every_found _ _ Hfind). cbn [take append Nat.add].
  rewrite pattern_length, drop_append. reflexivity.
Qed.

Lemma replace_every_fill (pieces : list (option string)) :
  (forall a, In (Some a) pieces -> skipped pattern a) ->
  replace_every pattern n replacement (fill pattern pieces)
  = fill replacement pieces.
Proof.
  induction pieces as [| [a |] pieces IH]; intros Hskips; cbn [fill].
  - apply replace_every_absent. destruct pattern; [contradiction | reflexivity].
  - rewrite replace_every_skip by (apply Hskips; now left).
    rewrite IH; [reflexivity |]. intros b Hb. apply Hskips. now right.
  - rewrite replace_every_hit.
    rewrite IH; [reflexivity |]. intros b Hb. apply Hskips. now right.
Qed.

End OnePattern.

(** No occurrence of a pattern starts in a text that lacks the pattern's
    first character. *)
Lemma skipped_without_first (c : ascii) (p a : string) :
  find_char a c = None -> skipped (String c p) a.
Proof.
  intros Ha rest. induction a as [| b a IH]; cbn [append String.length].
  - destruct (String.index 0 (String c p) rest); reflexivity.
  - cbn [find_char] in Ha.
    destruct (Ascii.eqb b c) eqn:Hb; [discriminate |].
    destruct (find_char a c); [discriminate |].
    rewrite index_unfold_zero. cbn [String.prefix].
    destruct (ascii_dec c b) as [<- |].
    + rewrite Ascii.eqb_refl in Hb. discriminate.
    + rewrite IH by reflexivity.
      destruct (String.index 0 (String c p) rest); reflexivity.
Qed.

(** No project-name placeholder starts inside a date placeholder. *)
Lemma skipped_date : skipped "{{PROJECT_NAME}}" "{{DATE}}".
Proof.
  intros rest. cbn [append String.length].
  repeat (rewrite index_unfold_zero; cbn [String.prefix];
          match goal with
          | |- context [ascii_dec ?x ?y] =>
              destruct (ascii_dec x y); [try discriminate |]
          end;
          try match goal with
              | |- context [ascii_dec ?x ?y] =>
                  destruct (ascii_dec x y); [try discriminate |]
              end;
          try match goal with
              | |- context [ascii_dec ?x ?y] =>
                  destruct (ascii_dec x y); [try discriminate |]
              end).
  all: destruct (String.index 0 "{{PROJECT_NAME}}" rest); reflexivity.
Qed.

End Templates.

Section TemplateInstances.

Import ProjectGenerator.

Variables (project_name date : string).

Local Abbreviation first_pass :=
  (fun t => match t with
            | Text a => Some a
            | ProjectName => None
            | Date => Some "{{DATE}}"
            end).

Local Abbreviation second_pass :=
  (fun t => match t with
            | Text a => Some a
            | ProjectName => Some project_name
            | Date => None
            end).

Lemma template_first_pass (tokens : list token) :
  template tokens = fill "{{PROJECT_NAME}}" (map first_pass tokens).
Proof.
  induction tokens as [| [a | |] tokens IH]; cbn [template fill map];
    [reflexivity | | |]; now rewrite IH.
Qed.

Lemma between_passes (tokens : list token) :
  fill project_name (map first_pass tokens)
  = fill "{{DATE}}" (map second_pass tokens).
Proof.
  induction tokens as [| [a | |] tokens IH]; cbn [fill map];
    [reflexivity | | |]; now rewrite IH.
Qed.

Lemma instantiate_second_pass (tokens : list token) :
  fill date (map second_pass tokens) = instantiate project_name date tokens.
Proof.
  induction tokens as [| [a | |] tokens IH]; cbn [instantiate fill map];
    [reflexivity | | |]; now rewrite IH.
Qed.

Lemma first_pass_skips (tokens : list token) :
  braceless tokens = true ->
  forall a, In (Some a) (map first_pass tokens) -> skipped "{{PROJECT_NAME}}" a.
Proof.
  induction tokens as [| [b | |] tokens IH]; cbn [braceless map In];
    intros Hb a Ha.
  - contradiction.
  - destruct (find_char b "{") eqn:Hbrace; [discriminate |].
    destruct Ha as [Ha | Ha]; [| now apply IH].
    injection Ha as <-. now apply skipped_without_first.
  - destruct Ha as [Ha | Ha]; [discriminate | now apply IH].
  - destruct Ha as [Ha | Ha]; [| now apply IH].
    injection Ha as <-. apply skipped_date.
Qed.

Lemma second_pass_skips (tokens : list token) :
  braceless tokens = true ->
  find_char project_name "{" = None ->
  forall a, In (Some a) (map second_pass tokens) -> skipped "{{DATE}}" a.
Proof.
  intros Hb Hname.
  induction tokens as [| [b | |] tokens IH]; cbn [braceless map In] in *;
    intros a Ha.
  - contradiction.
  - destruct (find_char b "{") eqn:Hbrace; [discriminate |].
    destruct Ha as [Ha | Ha]; [| now apply IH].
    injection Ha as <-. now apply skipped_without_first.
  - destruct Ha as [Ha | Ha]; [| now apply IH].
    injection Ha as <-. now apply skipped_without_first.
  - destruct Ha as [Ha | Ha]; [discriminate | now apply IH].
Qed.

(** X22.  On a template whose texts hold no opening brace,
    [replace_placeholders] puts the project name for every
    [{{PROJECT_NAME}}] and the date for every [{{DATE}}] and leaves the
    texts as they are, provided the project name holds no opening brace
    either; the date may be any string (it is put in last and not looked
    at again). *)
Theorem replace_placeholders_template (tokens : list token) :
  braceless tokens = true ->
  find_char project_name "{" = None ->
  replace_placeholders project_name date (template tokens)
  = instantiate project_name date tokens.
Proof.
  intros Hb Hname. unfold replace_placeholders.
  rewrite template_first_pass.
  rewrite (replace_every_fill "{{PROJECT_NAME}}" 16 project_name eq_refl
             ltac:(discriminate) _ (first_pass_skips tokens Hb)).
  rewrite between_passes.
  rewrite (replace_every_fill "{{DATE}}" 8 date eq_refl
             ltac:(discriminate) _ (second_pass_skips tokens Hb Hname)).
  apply instantiate_second_pass.
Qed.

End TemplateInstances.

Lemma replace_placeholders_template_witness :
  ProjectGenerator.replace_placeholders "my-ai-app" "October 06, 2025"
    "# {{PROJECT_NAME}} Server, {{DATE}}. Build {{PROJECT_NAME}} with build.py"
  = "# my-ai-app Server, October 06, 2025. Build my-ai-app with build.py".
Proof.
  apply (replace_placeholders_template "my-ai-app" "October 06, 2025"
           [ ProjectGenerator.Text "# "; ProjectGenerator.ProjectName;
             ProjectGenerator.Text " Server, "; ProjectGenerator.Date;
             ProjectGenerator.Text ". Build "; ProjectGenerator.ProjectName;
             ProjectGenerator.Text " with build.py" ]);
    reflexivity.
Defined.

(** A project name that holds a placeholder itself: the name is put in
    as it is by the first loop, and the second loop then finds the date
    placeholder in it. *)
Example project_name_with_date_placeholder :
  ProjectGenerator.replace_placeholders "{{DATE}}" "today" "{{PROJECT_NAME}}"
  = "today"
  /\ ProjectGenerator.replace_placeholders "{{PROJECT_NAME}}" "today"
       "<{{PROJECT_NAME}}>"
     = "<{{PROJECT_NAME}}>".
Proof. split; reflexivity. Qed.

Section NoRequestSample.

Import LlamaClient.

(** A prompt of one byte, 255, is not written by the strict codec. *)
Lemma no_request_without_body_witness :
  @complete _ MoreSamples.strict_codec Sample.backend Sample.on_8080
    (String "255"%char EmptyString) 16 (700 : Sample.number)
  = Throws (StdException TypeError "invalid UTF-8 byte")
  /\ @complete _ MoreSamples.strict_codec Sample.offline Sample.on_8080
       (String "255"%char EmptyString) 16 (700 : Sample.number)
     = Throws (StdException TypeError "invalid UTF-8 byte").
Proof.
  split.
  - apply (@no_request_without_body _ MoreSamples.strict_codec Sample.backend
             Sample.on_8080 "invalid UTF-8 byte").
    reflexivity.
  - apply (@no_request_without_body _ MoreSamples.strict_codec Sample.offline
             Sample.on_8080 "invalid UTF-8 byte").
    reflexivity.
Defined.

End NoRequestSample.
